(** * transcode.py: segment planning, stream selection and caption resync

    A shallow embedding of the algorithmic core of [transcode.py]:
    - the timestamp helpers [_convert_timestamp] and [_seconds_to_time_frac];
    - [Subtitles.mark] and [Subtitles.adjust];
    - [Transcoder._extract] and [Transcoder.split];
    - [_iso_639_2] and [Transcoder._find_streams].

    Conventions of the embedding.
    - Python numbers that hold seconds are modelled as exact rationals [Q]:
      the source mixes [int] and [float], and every comparison and sum below
      is read in exact arithmetic.  [int(x)] truncates toward zero,
      [round(x)] is Python 2's round-half-away-from-zero, [x % 1.0] is the
      fractional part in [0, 1).
    - Objects mutated by the methods ([Transcoder.seg], the chapter object,
      [Subtitles.marks]) are fields of one explicit state record that is
      threaded through a small state-and-exception monad.
    - External programs are oracles: [ffmpeg] is a function giving the
      return code of each extraction, and the regular-expression searches
      over tool output are given by their match results. *)

From Stdlib Require Import QArith Qround Qabs Lqa ZArith Lia List Bool.
From Stdlib Require Import String Ascii DecimalString.
Import ListNotations.

Local Open Scope Q_scope.

(** ** Python arithmetic on seconds *)

Module Py.

(** [a < b] on numbers, as a boolean. *)
Definition ltb (a b : Q) : bool := negb (Qle_bool b a).

(** [a > b]. *)
Definition gtb (a b : Q) : bool := ltb b a.

(** [int(x)]: truncation toward zero. *)
Definition int (x : Q) : Z := Z.quot (Qnum x) (Zpos (Qden x)).

(** [round(x)] of Python 2: nearest integer, halves away from zero. *)
Definition round (x : Q) : Z :=
  if Qle_bool 0 x then Qfloor (x + (1 # 2)) else Qceiling (x - (1 # 2)).

(** [x % 1.0]: the result takes the sign of the divisor. *)
Definition mod1 (x : Q) : Q := x - inject_Z (Qfloor x).

(** [10 ** n] for a length [n]. *)
Definition pow10 (n : nat) : Z := Z.pow 10 (Z.of_nat n).

(** Decimal digits of a natural number, ["0"] for zero. *)
Definition digits (n : N) : string := NilZero.string_of_uint (N.to_uint n).

Fixpoint zeros (n : nat) : string :=
  match n with
  | O => EmptyString
  | S k => String "0"%char (zeros k)
  end.

(** Left padding of an unsigned numeral with zeros up to [width]. *)
Definition zpad (width : nat) (s : string) : string :=
  (zeros (width - String.length s) ++ s)%string.

(** ['%0<width>d' % z]: the sign counts for the width. *)
Definition fmt_d (width : nat) (z : Z) : string :=
  if (z <? 0)%Z
  then String "-"%char (zpad (width - 1) (digits (Z.abs_N z)))
  else zpad width (digits (Z.abs_N z)).

(** Nearest integer, halves to even: the rounding of ['%.4f']. *)
Definition round_half_even (x : Q) : Z :=
  let f := Qfloor x in
  let r := x - inject_Z f in
  if ltb r (1 # 2) then f
  else if ltb (1 # 2) r then (f + 1)%Z
  else if Z.even f then f else (f + 1)%Z.

(** ['%0<width>.<prec>f' % x]. *)
Definition fmt_f (width prec : nat) (x : Q) : string :=
  let scaled := round_half_even (Qabs x * inject_Z (pow10 prec)) in
  let ip := Z.abs_N (scaled / pow10 prec) in
  let fp := Z.abs_N (scaled mod pow10 prec) in
  let body := (digits ip ++ "." ++ zpad prec (digits fp))%string in
  if ltb x 0
  then String "-"%char (zpad (width - 1) body)
  else zpad width body.

End Py.

(** ** Timestamps *)

(** The eight groups of a match of
    [(\d\d):(\d\d):(\d\d),(\d+)\s*-+>\s*(\d\d):(\d\d):(\d\d),(\d+)]:
    each group is a string of decimal digits. *)
Record ts_match : Type := TsMatch {
  group1 : Decimal.uint; group2 : Decimal.uint;
  group3 : Decimal.uint; group4 : Decimal.uint;
  group5 : Decimal.uint; group6 : Decimal.uint;
  group7 : Decimal.uint; group8 : Decimal.uint
}.

(** [int(s)] on a digit string. *)
Definition int_of (d : Decimal.uint) : Z := Z.of_uint d.

(** [float(g) / 10 ** len(g)]. *)
Definition frac_of (d : Decimal.uint) : Q :=
  inject_Z (int_of d) / inject_Z (Py.pow10 (Decimal.nb_digits d)).

Definition _convert_timestamp (ts : ts_match) : Q * Q :=
  let start := inject_Z (int_of (group1 ts) * 3600 + int_of (group2 ts) * 60) in
  let start := start + inject_Z (int_of (group3 ts)) in
  let start := start + frac_of (group4 ts) in
  let end_ := inject_Z (int_of (group5 ts) * 3600 + int_of (group6 ts) * 60) in
  let end_ := end_ + inject_Z (int_of (group7 ts)) in
  let end_ := end_ + frac_of (group8 ts) in
  (start, end_).

Definition _seconds_to_time_frac (sec : Q) (comma : bool) : string :=
  let hours := Py.int (sec / 3600) in
  let sec := sec - inject_Z (hours * 3600) in
  let minutes := Py.int (sec / 60) in
  let sec := sec - inject_Z (minutes * 60) in
  if comma then
    let frac := Py.round (Py.mod1 sec * 1000) in
    (Py.fmt_d 2 hours ++ ":" ++ Py.fmt_d 2 minutes ++ ":"
       ++ Py.fmt_d 2 (Py.int sec) ++ "," ++ Py.fmt_d 3 frac)%string
  else
    (Py.fmt_d 2 hours ++ ":" ++ Py.fmt_d 2 minutes ++ ":"
       ++ Py.fmt_f 7 4 sec)%string.

(** ** State and exceptions *)

Inductive exn : Type :=
| RuntimeError (msg : string)
| ValueError (msg : string).

(** The outcome of running a method on a state: a normal return, or an
    exception that leaves the mutations made so far in place. *)
Inductive result (S A : Type) : Type :=
| Ok (a : A) (s : S)
| Raise (e : exn) (s : S).

Arguments Ok {S A} a s.
Arguments Raise {S A} e s.

Definition M (S A : Type) : Type := S -> result S A.

Definition ret {S A} (a : A) : M S A := fun s => Ok a s.

Definition bind {S A B} (c : M S A) (k : A -> M S B) : M S B :=
  fun s => match c s with
           | Ok a s' => k a s'
           | Raise e s' => Raise e s'
           end.

Definition raise {S A} (e : exn) : M S A := fun s => Raise e s.

Definition gets {S A} (f : S -> A) : M S A := fun s => Ok (f s) s.

Definition modify {S} (f : S -> S) : M S unit := fun s => Ok tt (f s).

Definition final {S A} (r : result S A) : S :=
  match r with Ok _ s => s | Raise _ s => s end.

Declare Scope py_scope.
Delimit Scope py_scope with py.
Notation "x <- c ;; k" := (bind c (fun x => k))
  (at level 61, c at next level, right associativity) : py_scope.
Notation "c ;; k" := (bind c (fun _ => k))
  (at level 61, right associativity) : py_scope.
Notation "'when' b 'then' c" := (if b then c else ret tt)
  (at level 60, b at level 9, c at level 60) : py_scope.

(** [for x in l: body], the loop variables being the accumulator [a]. *)
Fixpoint for_each {S X A} (l : list X) (body : A -> X -> M S A) (a : A)
  : M S A :=
  match l with
  | [] => ret a
  | x :: l' => bind (body a x) (for_each l' body)
  end.

(** ** Subtitles: cutpoints for the captions *)

Definition nl : string := String (ascii_of_nat 10) EmptyString.

Module Subtitles.

(** [Subtitles.mark]: [self.marks += [sec]]. *)
Definition mark (sec : Q) (marks : list Q) : list Q := marks ++ [sec].

(** One line of the SRT file: its text, and the result of searching it
    for a pair of timestamps. *)
Record line : Type := Line {
  raw : string;
  search : option ts_match
}.

(** The arithmetic of [adjust] on one caption: the loop variables are
    [(delay, curr)], the caption is [(start, end)] as read from the file;
    the result holds the rewritten times. *)
Definition adjust_times (marks : list Q) (dc : Q * nat) (se : Q * Q)
  : (Q * nat) * (Q * Q) :=
  let '(delay, curr) := dc in
  let '(start, end_) := se in
  let start := start + delay in
  let end_ := end_ + delay in
  if ((curr <? List.length marks)%nat && Py.ltb (nth curr marks 0) end_)%bool
  then
    if Py.gtb (nth curr marks 0) start
    then ((delay + (nth curr marks 0 - end_), S curr),
          (start, nth curr marks 0))
    else ((delay, S curr), (start, end_))
  else ((delay, curr), (start, end_)).

(** Body of the loop of [adjust] over the lines of the file; [newsubs]
    is kept as the list of the lines written so far. *)
Definition adjust_line (marks : list Q) (st : (Q * nat) * list string)
    (l : line) : (Q * nat) * list string :=
  let '(dc, newsubs) := st in
  match search l with
  | Some m =>
      let '(dc', (start, end_)) := adjust_times marks dc (_convert_timestamp m) in
      let start := _seconds_to_time_frac start true in
      let end_ := _seconds_to_time_frac end_ true in
      (dc', newsubs ++ [(start ++ " --> " ++ end_ ++ nl)%string])
  | None => (dc, newsubs ++ [raw l])
  end.

(** [Subtitles.adjust]: the lines of the SRT file after the call. *)
Definition adjust (marks : list Q) (srt : list line) : list string :=
  if (List.length marks =? 0)%nat then map raw srt
  else snd (fold_left (adjust_line marks) srt ((0, 0%nat), [])).

(** The captions of a track alone: the times [adjust] computes for the
    successive captions, from the loop state [dc]. *)
Fixpoint adjust_captions (marks : list Q) (dc : Q * nat)
    (caps : list (Q * Q)) : list (Q * Q) :=
  match caps with
  | [] => []
  | c :: caps' =>
      let '(dc', c') := adjust_times marks dc c in
      c' :: adjust_captions marks dc' caps'
  end.

(** The values taken by [delay] after each caption. *)
Fixpoint delays (marks : list Q) (dc : Q * nat) (caps : list (Q * Q))
  : list Q :=
  match caps with
  | [] => []
  | c :: caps' =>
      let dc' := fst (adjust_times marks dc c) in
      fst dc' :: delays marks dc' caps'
  end.

End Subtitles.

(** ** Transcoder: extraction of the kept clips *)

Record opts : Type := Opts {
  thresh : Z;            (* --thresh, an int *)
  language : string      (* --language, a two-letter code *)
}.

Record source : Type := Source {
  cutlist : list (Q * Q);
  duration : Q
}.

(** The mutable objects reached from a [Transcoder]:
    [seg] is the segment counter, [chapters] the calls [add(pos, seg)]
    received by the chapter object in order, [marks] is [Subtitles.marks],
    and [cmds] logs each extraction command given to ffmpeg, by its clip
    (the arguments are [-ss clip[0] -t clip[1] - clip[0]]) and the number
    of the segment file it writes. The messages given to [logging] and
    the list [_split] of the names of the segment files are left out: no
    method below reads them. *)
Record transcoder : Type := Transcoder {
  seg : nat;
  chapters : list (Q * option nat);
  marks : list Q;
  cmds : list ((Q * Q) * nat)
}.

Definition init : transcoder :=
  {| seg := 0; chapters := []; marks := []; cmds := [] |}.

Definition chapters_add (pos : Q) (s : option nat) : M transcoder unit :=
  modify (fun t => {| seg := seg t; chapters := chapters t ++ [(pos, s)];
                      marks := marks t; cmds := cmds t |}).

Definition subtitles_mark (sec : Q) : M transcoder unit :=
  modify (fun t => {| seg := seg t; chapters := chapters t;
                      marks := Subtitles.mark sec (marks t); cmds := cmds t |}).

Definition log_cmd (clip : Q * Q) (n : nat) : M transcoder unit :=
  modify (fun t => {| seg := seg t; chapters := chapters t;
                      marks := marks t; cmds := cmds t ++ [(clip, n)] |}).

Definition incr_seg : M transcoder unit :=
  modify (fun t => {| seg := S (seg t); chapters := chapters t;
                      marks := marks t; cmds := cmds t |}).

(** [_cmd]: the command has run and returned [code]. *)
Definition _cmd {S} (code : Z) (expected : Z) : M S unit :=
  if (negb (code =? 0)%Z && negb (code =? expected)%Z)%bool
  then raise (RuntimeError "Unexpected return code")
  else ret tt.

Section Transcoder.

Local Open Scope py_scope.

(** Return code of ffmpeg when asked to extract [clip] as segment [n]. *)
Variable ffmpeg : Q * Q -> nat -> Z.

Variable o : opts.
Variable src : source.

Definition _extract (clip : Q * Q) (elapsed : Q) : M transcoder unit :=
  n <- gets seg ;;
  chapters_add elapsed (Some n) ;;
  log_cmd clip n ;;
  _cmd (ffmpeg clip n) 0 ;;
  incr_seg ;;
  subtitles_mark (snd clip).

(** Body of the loop of [split] on one cut; the loop variables are
    [(pos, elapsed)]. *)
Definition split_cut (pe : Q * Q) (cut : Q * Q) : M transcoder (Q * Q) :=
  let '(pos, elapsed) := pe in
  let '(start, end_) := cut in
  when (Py.gtb start (inject_Z (thresh o)) && Py.gtb start pos)%bool
    then _extract (pos, start) elapsed ;;
  ret (end_, elapsed + (start - pos)).

Definition split : M transcoder unit :=
  pe <- for_each (cutlist src) split_cut (0, 0) ;;
  let '(pos, elapsed) := pe in
  pe <- (if Py.ltb pos (duration src - inject_Z (thresh o))
         then _extract (pos, duration src) elapsed ;;
              ret (duration src, elapsed + (duration src - pos))
         else ret (pos, elapsed)) ;;
  let '(pos, elapsed) := pe in
  chapters_add elapsed None.

End Transcoder.

(** ** Stream selection *)

Definition languages : list (string * string) :=
  [("cs", "ces"); ("da", "dan"); ("de", "deu"); ("es", "spa");
   ("el", "ell"); ("en", "eng"); ("fi", "fin"); ("fr", "fra");
   ("he", "heb"); ("hr", "hrv"); ("hu", "hun"); ("it", "ita");
   ("ja", "jpn"); ("ko", "kor"); ("nl", "nld"); ("no", "nor");
   ("pl", "pol"); ("pt", "por"); ("ru", "rus"); ("sl", "slv");
   ("sv", "swe"); ("tr", "tur"); ("zh", "zho")]%string.

Fixpoint lookup (k : string) (d : list (string * string)) : option string :=
  match d with
  | [] => None
  | (k', v) :: d' => if String.eqb k k' then Some v else lookup k d'
  end.

Definition _iso_639_2 {S} (lang : string) : M S string :=
  match lookup lang languages with
  | Some code => ret code
  | None => raise (ValueError ("Invalid language code " ++ lang ++ "."))
  end.

(** One line of the report of [ffmpeg -i], by what the searches of
    [_find_streams] find in it. *)
Record probe_line : Type := ProbeLine {
  video_pid : option Z;       (* videoRE matches: group 1 read in base 16 *)
  video_main : bool;          (* 'Video:.*\(Main\)' is found *)
  audio_pid : option Z;       (* audioRE matches: group 1 read in base 16 *)
  audio_lang : option string  (* '\]\(([A-Za-z]+)\)' is found: group 1 *)
}.

Definition stream : Type := (Z * bool)%type.

(** [len([s[0] for s in streams if s[1]])]. *)
Definition enabled_count (streams : list stream) : nat :=
  List.length (map fst (filter snd streams)).

(** [streams[0] = (streams[0][0], True)] on a non-empty list. *)
Definition enable_first (streams : list stream) : list stream :=
  match streams with
  | [] => []
  | (pid, _) :: rest => (pid, true) :: rest
  end.

Section FindStreams.

Local Open Scope py_scope.

Variable o : opts.

(** Body of the loop over the lines of the report. *)
Definition probe (acc : list stream * list stream) (l : probe_line)
  : M unit (list stream * list stream) :=
  let '(vstreams, astreams) := acc in
  let vstreams :=
    match video_pid l with
    | Some pid => vstreams ++ [(pid, video_main l)]
    | None => vstreams
    end in
  astreams <-
    match audio_pid l with
    | Some pid =>
        enabled <-
          match audio_lang l with
          | Some tag =>
              code <- _iso_639_2 (language o) ;;
              ret (String.eqb tag code)
          | None => ret false
          end ;;
        ret (astreams ++ [(pid, enabled)])
    | None => ret astreams
    end ;;
  ret (vstreams, astreams).

Definition _find_streams (report : list probe_line)
  : M unit (list stream * list stream) :=
  va <- for_each report probe ([], []) ;;
  let '(vstreams, astreams) := va in
  when (List.length vstreams =? 0)%nat
    then raise (RuntimeError "No video streams could be found.") ;;
  when (List.length astreams =? 0)%nat
    then raise (RuntimeError "No audio streams could be found.") ;;
  let vstreams :=
    if (enabled_count vstreams =? 0)%nat then enable_first vstreams
    else vstreams in
  let astreams :=
    if (enabled_count astreams =? 0)%nat then enable_first astreams
    else astreams in
  ret (vstreams, astreams).

End FindStreams.

(** ** Vocabulary of the properties *)

(** An ffmpeg that extracts every clip it is asked for. *)
Definition always_ok : Q * Q -> nat -> Z := fun _ _ => 0%Z.

(** The Segments emitted by the planner: the clips given to [_extract],
    in order. *)
Definition segments (t : transcoder) : list (Q * Q) := map fst (cmds t).

(** The elapsed values given to the chapter object. *)
Definition markers (t : transcoder) : list Q := map fst (chapters t).

(** Total length of the clips [segs], added to [acc], after each of them:
    the position on the output timeline where each kept clip ends. *)
Fixpoint kept_upto (acc : Q) (segs : list (Q * Q)) : list Q :=
  match segs with
  | [] => []
  | (a, b) :: rest => (acc + (b - a)) :: kept_upto (acc + (b - a)) rest
  end.

(** [x] lies in the interval [iv], closed on the left, open on the right. *)
Definition inside (x : Q) (iv : Q * Q) : bool :=
  (Qle_bool (fst iv) x && Py.ltb x (snd iv))%bool.

(** How many of the intervals [ivs] hold the instant [x]. *)
Definition cover (x : Q) (ivs : list (Q * Q)) : nat :=
  List.length (filter (inside x) ivs).

(** Cuts in ascending order from the cursor [pos] on: each is a proper
    interval and starts no earlier than the previous one ends. *)
Fixpoint ascending (pos : Q) (cuts : list (Q * Q)) : Prop :=
  match cuts with
  | [] => True
  | (s, e) :: rest => pos <= s /\ s < e /\ ascending e rest
  end.

(** The position of the cursor after the cuts: the end of the last one. *)
Definition last_end (pos : Q) (cuts : list (Q * Q)) : Q :=
  fold_left (fun _ c => snd c) cuts pos.

(** The validity of a Cutlist in the words of the specification: no
    negative time, [end > start], every cut inside [[0, duration]], and no
    two cuts overlapping (each cut starts no earlier than the previous one
    ends). *)
Fixpoint valid_from (pos dur : Q) (cuts : list (Q * Q)) : bool :=
  match cuts with
  | [] => true
  | (s, e) :: rest =>
      (Qle_bool 0 s && Qle_bool 0 e && Py.ltb s e && Qle_bool e dur
         && Qle_bool pos s && valid_from e dur rest)%bool
  end.

Definition valid_cutlist (dur : Q) (cuts : list (Q * Q)) : bool :=
  valid_from 0 dur cuts.

(** The probed streams of each kind, in the order of the report. *)
Definition video_pids (report : list probe_line) : list Z :=
  flat_map (fun l => match video_pid l with Some p => [p] | None => [] end)
           report.

Definition audio_pids (report : list probe_line) : list Z :=
  flat_map (fun l => match audio_pid l with Some p => [p] | None => [] end)
           report.

(** The marks of the captions follow the clips. *)
Definition aligned (t : transcoder) : Prop :=
  marks t = map snd (segments t).

(** An exception that is the one [_cmd] raises for ffmpeg, and comes after
    a command was issued. *)
Definition from_cmd (e : exn) (t : transcoder) : Prop :=
  e = RuntimeError "Unexpected return code" /\ cmds t <> [].

(** Non-overlapping cuts sorted by their start. *)
Definition sorted_cuts (cuts : list (Q * Q)) : Prop :=
  match cuts with
  | [] => True
  | (s, _) :: _ => ascending s cuts
  end.

(** Cuts strictly inside [(thresh, dur - thresh)]. *)
Definition inside_window (th dur : Q) (cuts : list (Q * Q)) : Prop :=
  Forall (fun c => th < fst c /\ snd c < dur - th) cuts.

(** 1 when [b] holds, 0 otherwise. *)
Definition indicator (b : bool) : nat := if b then 1%nat else 0%nat.

(** The defaults of [_get_defaults] that matter here. *)
Definition default_opts : opts := Opts 5 "en".

(** A recording of 100 seconds with two commercial breaks. *)
Definition two_breaks : source := Source [(20, 30); (60, 65)] 100.

(** The captions of an SRT file: the times of its timestamp lines. *)
Definition captions (srt : list Subtitles.line) : list (Q * Q) :=
  flat_map (fun l => match Subtitles.search l with
                     | Some m => [_convert_timestamp m]
                     | None => []
                     end) srt.

(** The timestamp line written for a caption. *)
Definition timestamp_line (c : Q * Q) : string :=
  (_seconds_to_time_frac (fst c) true ++ " --> "
     ++ _seconds_to_time_frac (snd c) true ++ nl)%string.

(** The file [srt] with the times of its captions replaced by [times]. *)
Fixpoint render (srt : list Subtitles.line) (times : list (Q * Q))
  : list string :=
  match srt with
  | [] => []
  | l :: rest =>
      match Subtitles.search l, times with
      | Some _, c :: times' => timestamp_line c :: render rest times'
      | Some _, [] => []
      | None, _ => Subtitles.raw l :: render rest times
      end
  end.

(** The probed video streams with their flags, in the order of the report. *)
Definition probed_video (report : list probe_line) : list stream :=
  flat_map (fun l => match video_pid l with
                     | Some p => [(p, video_main l)]
                     | None => []
                     end) report.

(** A group of a match, from its digits. *)
Definition group (s : string) : Decimal.uint :=
  match NilEmpty.uint_of_string s with
  | Some d => d
  | None => Decimal.Nil
  end.

(** The line [00:00:59,000 --> 00:01:01,000] of an SRT file. *)
Definition caption_59_61 : Subtitles.line :=
  Subtitles.Line ("00:00:59,000 --> 00:01:01,000" ++ nl)
    (Some (TsMatch (group "00") (group "00") (group "59") (group "000")
                   (group "00") (group "01") (group "01") (group "000"))).

(** The line [00:00:10,000 --> 00:00:12,000] of an SRT file. *)
Definition caption_10_12 : Subtitles.line :=
  Subtitles.Line ("00:00:10,000 --> 00:00:12,000" ++ nl)
    (Some (TsMatch (group "00") (group "00") (group "10") (group "000")
                   (group "00") (group "00") (group "12") (group "000"))).

(** A report with one audio stream in French and no video stream. *)
Definition audio_only : list probe_line :=
  [ProbeLine None false (Some 20%Z) (Some "fra"%string)].

(** A report with a video stream, an audio stream in French and an audio
    stream without language. *)
Definition french_report : list probe_line :=
  [ProbeLine (Some 17%Z) false None None;
   ProbeLine None false (Some 20%Z) (Some "fra"%string);
   ProbeLine None false (Some 21%Z) None].

(** A sequence that never rises, starting below [d0]. *)
Fixpoint nonincreasing (d0 : Q) (ds : list Q) : Prop :=
  match ds with
  | [] => True
  | d :: rest => d <= d0 /\ nonincreasing d rest
  end.

(** ** Further functions of the program *)

(** [_seconds_to_time]: the length of time without the fraction. *)
Definition _seconds_to_time (sec : Q) : string :=
  let hours := Py.int (sec / 3600) in
  let sec := sec - inject_Z (hours * 3600) in
  let minutes := Py.int (sec / 60) in
  let sec := sec - inject_Z (minutes * 60) in
  (Py.fmt_d 2 hours ++ ":" ++ Py.fmt_d 2 minutes ++ ":"
     ++ Py.fmt_d 2 (Py.int sec))%string.

Module MP4Chapters.

(** A [TextSample] element of the chapter document: its [sampleTime]
    attribute and its text (empty for the closing chapter). *)
Record sample : Type := Sample {
  sampleTime : string;
  text : string
}.

(** [MP4Chapters.add]: the samples of the document after the call. *)
Definition add (pos : Q) (seg : option nat) (doc : list sample)
  : list sample :=
  let time := _seconds_to_time_frac (inject_Z (Py.round pos)) false in
  match seg with
  | None => doc ++ [Sample time ""]
  | Some n => doc ++ [Sample time ("Scene " ++ Py.fmt_d 0 (Z.of_nat n + 1))]
  end.

End MP4Chapters.

(** The text of a timestamp [hh:mm:ss,fff] from its four groups. *)
Definition stamp_text (h m s f : Decimal.uint) : string :=
  (NilEmpty.string_of_uint h ++ ":" ++ NilEmpty.string_of_uint m ++ ":"
     ++ NilEmpty.string_of_uint s ++ "," ++ NilEmpty.string_of_uint f)%string.

(** A timestamp in the usual form of SRT files: two digits for the hours,
    the minutes and the seconds, three for the milliseconds, and minutes
    and seconds below 60. *)
Definition usual_stamp (h m s f : Decimal.uint) : Prop :=
  Decimal.nb_digits h = 2%nat /\ Decimal.nb_digits m = 2%nat
  /\ Decimal.nb_digits s = 2%nat /\ Decimal.nb_digits f = 3%nat
  /\ (int_of m < 60)%Z /\ (int_of s < 60)%Z.

Definition usual_match (m : ts_match) : Prop :=
  usual_stamp (group1 m) (group2 m) (group3 m) (group4 m)
  /\ usual_stamp (group5 m) (group6 m) (group7 m) (group8 m).

(** The loop variables [(delay, curr)] of [adjust] after the captions. *)
Fixpoint adjust_state (marks : list Q) (dc : Q * nat) (caps : list (Q * Q))
  : Q * nat :=
  match caps with
  | [] => dc
  | c :: caps' => adjust_state marks (fst (Subtitles.adjust_times marks dc c)) caps'
  end.

(** A sequence that never falls, starting above [d0]. *)
Fixpoint nondecreasing (d0 : Q) (ds : list Q) : Prop :=
  match ds with
  | [] => True
  | d :: rest => d0 <= d /\ nondecreasing d rest
  end.

(** The bookkeeping of a [Transcoder] between two extractions: the
    chapters and the commands are numbered from 0 to [seg - 1], and one
    cutpoint is marked for each. *)
Definition numbered (t : transcoder) : Prop :=
  map snd (chapters t) = map Some (seq 0 (seg t))
  /\ map snd (cmds t) = seq 0 (seg t)
  /\ List.length (marks t) = seg t.

(** The bookkeeping after an extraction that failed: the chapter of the
    segment [seg] is there and its command was issued, but [seg] was
    not advanced and no cutpoint was marked for it. *)
Definition interrupted (t : transcoder) : Prop :=
  map snd (chapters t) = map Some (seq 0 (S (seg t)))
  /\ map snd (cmds t) = seq 0 (S (seg t))
  /\ List.length (marks t) = seg t.

(** *** The target resolution *)





(** *** The log of the demultiplexer *)

(** One line of the log of Project-X, by what the searches of
    [_find_demux] find in it. *)
Record log_line : Type := LogLine {
  log_video_pid : option Z;   (* 'Video: PID 0x([0-9A-Fa-f]+)' is found *)
  log_audio_pid : option Z;   (* 'Audio: PID 0x([0-9A-Fa-f]+)' is found *)
  log_video_file : bool;      (* the line starts with '.Video ' *)
  log_audio_file : bool;      (* the line starts with 'Audio ' and a digit *)
  log_file : option string    (* a quoted name ends the line: group 1 *)
}.

(** The counters of the loop of [_find_demux]. *)
Record counters : Type := Counters {
  curr_v : nat; curr_a : nat;
  found_v : nat; found_a : nat;
  targ_v : nat; targ_a : nat
}.

(** The fields of the [Transcoder] that [_find_demux] writes; [_demuxed]
    is a list to which the characters of each name are added. *)
Record demuxer : Type := Demuxer {
  _demuxed : string;
  _demux_v : option string;
  _demux_a : option string
}.

Definition demux_init : demuxer := Demuxer EmptyString None None.

(** [for s in streams: if s[0] == pid and s[1]: targ = found]. *)
Definition retarget (streams : list stream) (pid : Z) (found targ : nat) : nat :=
  fold_left (fun t s => if ((fst s =? pid)%Z && snd s)%bool then found else t)
            streams targ.

(** A line that announces a video stream: [found_v] advances, and the
    target becomes its ordinal when the stream is enabled. *)
Definition heard_video (vstreams : list stream) (l : log_line) (c : counters)
  : counters :=
  match log_video_pid l with
  | Some pid =>
      {| curr_v := curr_v c; curr_a := curr_a c;
         found_v := S (found_v c); found_a := found_a c;
         targ_v := retarget vstreams pid (S (found_v c)) (targ_v c);
         targ_a := targ_a c |}
  | None => c
  end.

(** The same for a line that announces an audio stream. *)
Definition heard_audio (astreams : list stream) (l : log_line) (c : counters)
  : counters :=
  match log_audio_pid l with
  | Some pid =>
      {| curr_v := curr_v c; curr_a := curr_a c;
         found_v := found_v c; found_a := S (found_a c);
         targ_v := targ_v c;
         targ_a := retarget astreams pid (S (found_a c)) (targ_a c) |}
  | None => c
  end.

(** Body of the loop of [_find_demux] over the lines of the log. *)
Definition scan (vstreams astreams : list stream) (st : counters * demuxer)
    (l : log_line) : counters * demuxer :=
  let '(c, d) := st in
  let c := heard_video vstreams l c in
  let c := heard_audio astreams l c in
  if log_video_file l then
    let d :=
      match log_file l with
      | Some f =>
          {| _demuxed := (_demuxed d ++ f)%string;
             _demux_v := if (curr_v c =? targ_v c)%nat then Some f
                         else _demux_v d;
             _demux_a := _demux_a d |}
      | None => d
      end in
    ({| curr_v := S (curr_v c); curr_a := curr_a c;
        found_v := found_v c; found_a := found_a c;
        targ_v := targ_v c; targ_a := targ_a c |}, d)
  else if log_audio_file l then
    let d :=
      match log_file l with
      | Some f =>
          {| _demuxed := (_demuxed d ++ f)%string;
             _demux_v := _demux_v d;
             _demux_a := if (curr_a c =? targ_a c)%nat then Some f
                         else _demux_a d |}
      | None => d
      end in
    ({| curr_v := curr_v c; curr_a := S (curr_a c);
        found_v := found_v c; found_a := found_a c;
        targ_v := targ_v c; targ_a := targ_a c |}, d)
  else (c, d).

(** The loop of [_find_demux] from its first line. *)
Definition scan_log (vstreams astreams : list stream) (log : list log_line)
    (d : demuxer) : demuxer :=
  snd (fold_left (scan vstreams astreams) log (Counters 1 1 0 0 0 0, d)).

Section Demux.

Local Open Scope py_scope.

Variable o : opts.

(** The report of [ffmpeg -i] on the joined file and the log of
    Project-X. *)
Variable report : list probe_line.
Variable log : list log_line.

(** Return code of Project-X, and [os.path.exists]. *)
Variable projectx : Z.
Variable exists_ : string -> bool.

Definition _find_demux : M demuxer unit :=
  fun d =>
    match _find_streams o report tt with
    | Ok (vstreams, astreams) _ => Ok tt (scan_log vstreams astreams log d)
    | Raise e _ => Raise e d
    end.

Definition missing (file : option string) : bool :=
  match file with
  | None => true
  | Some f => negb (exists_ f)
  end.

Definition demux : M demuxer unit :=
  (fun d => match _cmd projectx 0 d with
            | Ok _ d' => Ok tt d'
            | Raise _ d' => Raise (RuntimeError "Could not demux video.") d'
            end) ;;
  _find_demux ;;
  v <- gets _demux_v ;;
  when (missing v)
    then raise (RuntimeError "Could not locate demuxed video stream.") ;;
  a <- gets _demux_a ;;
  when (missing a)
    then raise (RuntimeError "Could not locate demuxed audio stream.").

End Demux.

(** Some stream of the list has the identifier [pid] and is enabled. *)
Definition enabled_pid (streams : list stream) (pid : Z) : bool :=
  existsb (fun s => ((fst s =? pid)%Z && snd s)%bool) streams.

(** The target ordinal after the announcements [pids] of one kind, from
    the counters [found] and [targ]: the ordinal of the last announcement
    of an enabled stream. *)
Fixpoint targ_after (streams : list stream) (pids : list Z)
    (found targ : nat) : nat :=
  match pids with
  | [] => targ
  | p :: rest =>
      targ_after streams rest (S found)
                 (if enabled_pid streams p then S found else targ)
  end.

(** The video identifiers announced in the log, in order. *)
Definition announced_video (log : list log_line) : list Z :=
  flat_map (fun l => match log_video_pid l with Some p => [p] | None => [] end)
           log.

Definition announced_audio (log : list log_line) : list Z :=
  flat_map (fun l => match log_audio_pid l with Some p => [p] | None => [] end)
           log.

(** What the log says of each video file it writes, in order: its name,
    if the line gives one. *)
Definition video_files (log : list log_line) : list (option string) :=
  flat_map (fun l => if log_video_file l then [log_file l] else []) log.

(** The same for the audio files: a line that starts as a video line is
    never read as an audio line. *)
Definition audio_files (log : list log_line) : list (option string) :=
  flat_map (fun l => if log_video_file l then []
                     else if log_audio_file l then [log_file l] else []) log.

(** A line that announces no file. *)
Definition no_file (l : log_line) : Prop :=
  log_video_file l = false /\ log_audio_file l = false.

(** A line that announces no stream. *)
Definition no_pid (l : log_line) : Prop :=
  log_video_pid l = None /\ log_audio_pid l = None.

(** A log of Project-X: two video streams and an audio stream announced,
    then the files written for them. *)
Definition small_log : list log_line :=
  [LogLine (Some 17%Z) None false false None;
   LogLine (Some 18%Z) None false false None;
   LogLine None (Some 21%Z) false false None;
   LogLine None None true false (Some "a.m2v"%string);
   LogLine None None true false (Some "b.m2v"%string);
   LogLine None None false true (Some "c.ac3"%string)].

(** A log that announces only a video stream that was not probed. *)
Definition foreign_log : list log_line :=
  [LogLine (Some 99%Z) None false false None;
   LogLine None None true false (Some "a.m2v"%string)].

(** Every file is there. *)
Definition all_exist : string -> bool := fun _ => true.

(** The state of the [Transcoder] after [split] on [two_breaks]. *)
Definition two_breaks_done : transcoder :=
  {| seg := 3;
     chapters := [(0, Some 0%nat); (20, Some 1%nat); (50, Some 2%nat);
                  (85, None)];
     marks := [20; 60; 100];
     cmds := [((0, 20), 0%nat); ((30, 60), 1%nat); ((65, 100), 2%nat)] |}.

(** An ffmpeg that fails on the second clip. *)
Definition fails_second : Q * Q -> nat -> Z :=
  fun _ n => if (n =? 1)%nat then 1%Z else 0%Z.

(** The state in which [split] on [two_breaks] leaves the [Transcoder]
    when ffmpeg fails on the second clip. *)
Definition two_breaks_failed : transcoder :=
  {| seg := 1;
     chapters := [(0, Some 0%nat); (20, Some 1%nat)];
     marks := [20];
     cmds := [((0, 20), 0%nat); ((30, 60), 1%nat)] |}.

(** The match of the line [00:00:10,000 --> 00:00:12,000]. *)
Definition match_10_12 : ts_match :=
  TsMatch (group "00") (group "00") (group "10") (group "000")
          (group "00") (group "00") (group "12") (group "000").

(** A line of an SRT file as [adjust] writes it when it moves nothing:
    the two timestamps of a timestamp line with one arrow between them,
    any other line as it is. *)
Definition rewritten (l : Subtitles.line) : string :=
  match Subtitles.search l with
  | Some m =>
      (stamp_text (group1 m) (group2 m) (group3 m) (group4 m) ++ " --> "
         ++ stamp_text (group5 m) (group6 m) (group7 m) (group8 m) ++ nl)%string
  | None => Subtitles.raw l
  end.

(** Every timestamp line of the file is in the usual form. *)
Definition usual_file (srt : list Subtitles.line) : Prop :=
  Forall (fun l => match Subtitles.search l with
                   | Some m => usual_match m
                   | None => True
                   end) srt.

(** The probed audio streams, each flagged when its language tag is
    [code], in the order of the report. *)
Definition probed_audio (code : string) (report : list probe_line)
  : list stream :=
  flat_map (fun l => match audio_pid l with
                     | Some p =>
                         [(p, match audio_lang l with
                              | Some tag => String.eqb tag code
                              | None => false
                              end)]
                     | None => []
                     end) report.

(** A report with a main video stream and a second one, an audio stream
    in French and one in English. *)
Definition english_report : list probe_line :=
  [ProbeLine (Some 17%Z) false None None;
   ProbeLine (Some 18%Z) true None None;
   ProbeLine None false (Some 20%Z) (Some "fra"%string);
   ProbeLine None false (Some 21%Z) (Some "eng"%string)].

(** A sequence that rises at each step, starting above [d0]. *)
Fixpoint increasing (d0 : Q) (ds : list Q) : Prop :=
  match ds with
  | [] => True
  | d :: rest => d0 < d /\ increasing d rest
  end.

(** ** Comparisons *)

Lemma ltb_lt (a b : Q) : Py.ltb a b = true <-> a < b.
Proof.
  unfold Py.ltb. rewrite negb_true_iff.
  destruct (Qle_bool b a) eqn:E.
  - apply Qle_bool_iff in E. split; [discriminate | intros H; lra].
  - split; [intros _ | reflexivity].
    apply Qnot_le_lt. intros H. apply Qle_bool_iff in H. congruence.
Qed.

Lemma ltb_ge (a b : Q) : Py.ltb a b = false <-> b <= a.
Proof.
  unfold Py.ltb. rewrite negb_false_iff. apply Qle_bool_iff.
Qed.

Lemma Qle_bool_false (a b : Q) : Qle_bool a b = false <-> b < a.
Proof.
  rewrite <- ltb_lt. unfold Py.ltb. rewrite negb_true_iff. reflexivity.
Qed.

(** Turns the boolean tests of the context into order facts. *)
Ltac order_facts :=
  repeat match goal with
         | H : Py.gtb _ _ = _ |- _ => unfold Py.gtb in H
         | H : Py.ltb _ _ = true |- _ => apply ltb_lt in H
         | H : Py.ltb _ _ = false |- _ => apply ltb_ge in H
         | H : Qle_bool _ _ = true |- _ => apply Qle_bool_iff in H
         | H : Qle_bool _ _ = false |- _ => apply Qle_bool_false in H
         end.

(** ** Loops and sequencing *)

Lemma for_each_returns {S X A} (P : S -> Prop) (body : A -> X -> M S A) :
  (forall a x s a' s', P s -> body a x s = Ok a' s' -> P s') ->
  forall l a s a' s', P s -> for_each l body a s = Ok a' s' -> P s'.
Proof.
  intros Hbody l. induction l as [| x l IH]; intros a s a' s' HP Hrun.
  - inversion Hrun. subst. exact HP.
  - simpl in Hrun. unfold bind in Hrun.
    destruct (body a x s) as [a1 s1 | e s1] eqn:E; [| discriminate].
    eapply IH; [eapply Hbody; eassumption | eassumption].
Qed.

Lemma for_each_raises {S X A} (R : exn -> S -> Prop) (body : A -> X -> M S A) :
  (forall a x s e s', body a x s = Raise e s' -> R e s') ->
  forall l a s e s', for_each l body a s = Raise e s' -> R e s'.
Proof.
  intros Hbody l. induction l as [| x l IH]; intros a s e s' Hrun.
  - discriminate.
  - simpl in Hrun. unfold bind in Hrun.
    destruct (body a x s) as [a1 s1 | e1 s1] eqn:E.
    + eapply IH; eassumption.
    + inversion Hrun. subst. eapply Hbody; eassumption.
Qed.

Lemma for_each_total {S X A} (body : A -> X -> M S A) :
  (forall a x s, exists a' s', body a x s = Ok a' s') ->
  forall l a s, exists a' s', for_each l body a s = Ok a' s'.
Proof.
  intros Hbody l. induction l as [| x l IH]; intros a s.
  - exists a, s. reflexivity.
  - simpl. unfold bind. destruct (Hbody a x s) as (a1 & s1 & E).
    rewrite E. apply IH.
Qed.

Lemma final_then_ret {S A B} (c : M S A) (b : B) (s : S) :
  final (bind c (fun _ => ret b) s) = final (c s).
Proof.
  unfold bind. destruct (c s); reflexivity.
Qed.

Lemma app_one_neq {X} (l : list X) (x : X) : l <> (l ++ [x])%list.
Proof.
  intros H. apply (f_equal (@List.length X)) in H.
  rewrite length_app in H. simpl in H. lia.
Qed.

(** ** The planner *)

Section Planner.

Variable ffmpeg : Q * Q -> nat -> Z.
Variable o : opts.

(** An extraction that ffmpeg completes: the chapter is added at
    [elapsed], the segment counter advances, the end of the clip is
    marked for the captions. *)
Lemma _extract_ok (clip : Q * Q) (elapsed : Q) (t : transcoder) :
  ffmpeg clip (seg t) = 0%Z ->
  _extract ffmpeg clip elapsed t =
  Ok tt {| seg := S (seg t);
           chapters := chapters t ++ [(elapsed, Some (seg t))];
           marks := marks t ++ [snd clip];
           cmds := cmds t ++ [(clip, seg t)] |}.
Proof.
  intros H. unfold _extract, bind, gets, chapters_add, log_cmd, modify,
    _cmd, incr_seg, subtitles_mark, Subtitles.mark. simpl.
  rewrite H. reflexivity.
Qed.

(** An extraction that ffmpeg fails: the exception of [_cmd], after the
    chapter was added and the command issued. *)
Lemma _extract_fails (clip : Q * Q) (elapsed : Q) (t : transcoder) :
  ffmpeg clip (seg t) <> 0%Z ->
  _extract ffmpeg clip elapsed t =
  Raise (RuntimeError "Unexpected return code")
        {| seg := seg t;
           chapters := chapters t ++ [(elapsed, Some (seg t))];
           marks := marks t;
           cmds := cmds t ++ [(clip, seg t)] |}.
Proof.
  intros H. unfold _extract, bind, gets, chapters_add, log_cmd, modify,
    _cmd. simpl.
  apply Z.eqb_neq in H. rewrite H. reflexivity.
Qed.

(** Whatever ffmpeg does, [_extract] issues exactly one command. *)
Lemma _extract_cmds (clip : Q * Q) (elapsed : Q) (t : transcoder) :
  cmds (final (_extract ffmpeg clip elapsed t)) = cmds t ++ [(clip, seg t)].
Proof.
  destruct (Z.eq_dec (ffmpeg clip (seg t)) 0) as [E | E].
  - rewrite _extract_ok by exact E. reflexivity.
  - rewrite _extract_fails by exact E. reflexivity.
Qed.

(** The test of [split] on a cut, as an order fact. *)
Lemma emit_test (pos start : Q) :
  (Py.gtb start (inject_Z (thresh o)) && Py.gtb start pos)%bool = true
  <-> inject_Z (thresh o) < start /\ pos < start.
Proof.
  rewrite andb_true_iff. unfold Py.gtb. rewrite !ltb_lt. reflexivity.
Qed.

(** C2 (as amended). On a cut [(start, end)] met with the cursor at
    [pos], the loop of [split] gives the clip [(pos, start)] to ffmpeg
    if and only if [start > thresh] and [start > pos]: the threshold is
    compared with the position [start] in the recording, not with the
    length [start - pos]; and it issues no other command. *)
Theorem split_cut_emits_iff (pos elapsed start end_ : Q) (t : transcoder) :
  let t' := final (split_cut ffmpeg o (pos, elapsed) (start, end_) t) in
  (cmds t' = cmds t ++ [((pos, start), seg t)]
   <-> inject_Z (thresh o) < start /\ pos < start)
  /\ (cmds t' = cmds t \/ cmds t' = cmds t ++ [((pos, start), seg t)]).
Proof.
  unfold split_cut.
  destruct (Py.gtb start (inject_Z (thresh o)) && Py.gtb start pos)%bool
    eqn:E; simpl.
  - rewrite final_then_ret, _extract_cmds.
    apply emit_test in E. split; [tauto | now right].
  - unfold bind, ret. simpl. split; [| now left].
    split.
    + intros H. exfalso. exact (app_one_neq _ _ H).
    + intros H. apply emit_test in H. congruence.
Qed.

Lemma _extract_aligned clip elapsed t t' :
  aligned t -> _extract ffmpeg clip elapsed t = Ok tt t' -> aligned t'.
Proof.
  intros Ha Hrun.
  destruct (Z.eq_dec (ffmpeg clip (seg t)) 0) as [E | E].
  - rewrite _extract_ok in Hrun by exact E. inversion Hrun.
    unfold aligned, segments in *. simpl.
    rewrite !map_app, Ha. reflexivity.
  - rewrite _extract_fails in Hrun by exact E. discriminate.
Qed.

Lemma split_cut_aligned pe cut t pe' t' :
  aligned t -> split_cut ffmpeg o pe cut t = Ok pe' t' -> aligned t'.
Proof.
  destruct pe as [pos elapsed], cut as [start end_]. unfold split_cut.
  intros Ha Hrun. unfold bind in Hrun.
  destruct (Py.gtb start (inject_Z (thresh o)) && Py.gtb start pos)%bool.
  - destruct (_extract ffmpeg (pos, start) elapsed t) as [[] t1 | e t1] eqn:E;
      [| discriminate].
    inversion Hrun. subst. eapply _extract_aligned; eassumption.
  - inversion Hrun. subst. exact Ha.
Qed.

Lemma chapters_add_aligned pos s t :
  aligned t -> aligned (final (chapters_add pos s t)).
Proof. intros Ha. exact Ha. Qed.

(** C1 (as amended). When [split] returns, the cutpoints marked for the
    captions are, in order, the end positions in the source recording
    of the clips that were extracted ([clip[1]]), not the elapsed values
    given to the chapters. *)
Theorem split_marks_are_clip_ends (src : source) (t : transcoder) :
  split ffmpeg o src init = Ok tt t ->
  marks t = map snd (segments t).
Proof.
  unfold split. intros Hrun. unfold bind at 1 in Hrun.
  destruct (for_each (cutlist src) (split_cut ffmpeg o) (0, 0) init)
    as [[pos elapsed] t1 | e t1] eqn:Eloop; [| discriminate].
  assert (H1 : aligned t1).
  { eapply (for_each_returns aligned); [| | exact Eloop].
    - intros a x s a' s'. apply split_cut_aligned.
    - reflexivity. }
  unfold bind in Hrun.
  destruct (Py.ltb pos (duration src - inject_Z (thresh o))).
  - destruct (_extract ffmpeg (pos, duration src) elapsed t1)
      as [[] t2 | e t2] eqn:E; [| discriminate].
    simpl in Hrun. inversion Hrun.
    apply (_extract_aligned _ _ _ _ H1 E).
  - simpl in Hrun. inversion Hrun. exact H1.
Qed.

Lemma _extract_raises clip elapsed t e t' :
  _extract ffmpeg clip elapsed t = Raise e t' -> from_cmd e t'.
Proof.
  intros Hrun.
  destruct (Z.eq_dec (ffmpeg clip (seg t)) 0) as [E | E].
  - rewrite _extract_ok in Hrun by exact E. discriminate.
  - rewrite _extract_fails in Hrun by exact E. inversion Hrun.
    split; [reflexivity |]. simpl. intros H.
    symmetry in H. apply app_cons_not_nil in H. exact H.
Qed.

Lemma split_cut_raises pe cut t e t' :
  split_cut ffmpeg o pe cut t = Raise e t' -> from_cmd e t'.
Proof.
  destruct pe as [pos elapsed], cut as [start end_]. unfold split_cut.
  intros Hrun. unfold bind in Hrun.
  destruct (Py.gtb start (inject_Z (thresh o)) && Py.gtb start pos)%bool.
  - destruct (_extract ffmpeg (pos, start) elapsed t) as [[] t1 | e1 t1] eqn:E.
    + discriminate.
    + inversion Hrun. subst. eapply _extract_raises. exact E.
  - discriminate.
Qed.

Lemma split_cut_total :
  (forall c n, ffmpeg c n = 0%Z) ->
  forall pe cut t, exists pe' t', split_cut ffmpeg o pe cut t = Ok pe' t'.
Proof.
  intros Hok [pos elapsed] [start end_] t. unfold split_cut, bind.
  destruct (Py.gtb start (inject_Z (thresh o)) && Py.gtb start pos)%bool.
  - rewrite _extract_ok by apply Hok. eexists. eexists. reflexivity.
  - eexists. eexists. reflexivity.
Qed.

(** C4 (as amended). [split] checks nothing about the Cutlist: on every
    Cutlist, valid or not, the only exception it can raise is the one of
    [_cmd] for a failed ffmpeg, after extraction has begun; and when
    ffmpeg extracts every clip, [split] returns. *)
Theorem split_checks_nothing (src : source) :
  (forall e t, split ffmpeg o src init = Raise e t ->
               e = RuntimeError "Unexpected return code" /\ cmds t <> [])
  /\ ((forall c n, ffmpeg c n = 0%Z) ->
      exists t, split ffmpeg o src init = Ok tt t).
Proof.
  split.
  - intros e t Hrun. unfold split in Hrun. unfold bind at 1 in Hrun.
    destruct (for_each (cutlist src) (split_cut ffmpeg o) (0, 0) init)
      as [[pos elapsed] t1 | e1 t1] eqn:Eloop.
    + unfold bind in Hrun.
      destruct (Py.ltb pos (duration src - inject_Z (thresh o)));
        [| discriminate].
      destruct (_extract ffmpeg (pos, duration src) elapsed t1)
        as [[] t2 | e2 t2] eqn:E; [discriminate |].
      inversion Hrun. subst. exact (_extract_raises _ _ _ _ _ E).
    + inversion Hrun. subst.
      apply (for_each_raises from_cmd _ split_cut_raises _ _ _ _ _ Eloop).
  - intros Hok. unfold split. unfold bind at 1.
    destruct (for_each_total _ (split_cut_total Hok) (cutlist src) (0, 0) init)
      as ([pos elapsed] & t1 & Eloop).
    rewrite Eloop. unfold bind.
    destruct (Py.ltb pos (duration src - inject_Z (thresh o))).
    + rewrite _extract_ok by apply Hok. eexists. reflexivity.
    + eexists. reflexivity.
Qed.

(** Whether or not the clip is extracted, a cut moves the cursor to its
    end and adds [start - pos] to [elapsed]. *)
Lemma split_cut_advances pe cut t pe' t' :
  split_cut ffmpeg o pe cut t = Ok pe' t' ->
  pe' = (snd cut, snd pe + (fst cut - fst pe)).
Proof.
  destruct pe as [pos elapsed], cut as [start end_]. unfold split_cut.
  intros Hrun. unfold bind in Hrun.
  destruct (Py.gtb start (inject_Z (thresh o)) && Py.gtb start pos)%bool.
  - destruct (_extract ffmpeg (pos, start) elapsed t) as [[] t1 | e t1];
      [| discriminate].
    inversion Hrun. reflexivity.
  - inversion Hrun. reflexivity.
Qed.

(** *** The clips and the cuts share out the recording *)

Lemma cover_cons x c l :
  cover x (c :: l) = (indicator (inside x c) + cover x l)%nat.
Proof.
  unfold cover. simpl. destruct (inside x c); reflexivity.
Qed.

Lemma cover_app x a b : cover x (a ++ b) = (cover x a + cover x b)%nat.
Proof.
  unfold cover. rewrite filter_app, length_app. reflexivity.
Qed.

Lemma ascending_weaken p q cuts :
  q <= p -> ascending p cuts -> ascending q cuts.
Proof.
  destruct cuts as [| [s e] rest]; simpl; [trivial |].
  intros Hq (H1 & H2 & H3). repeat split; try assumption. lra.
Qed.

Lemma last_end_below (B : Q) cuts :
  Forall (fun c => snd c < B) cuts ->
  forall pos, pos < B -> last_end pos cuts < B.
Proof.
  unfold last_end. induction 1 as [| c cuts Hc _ IH]; intros pos Hpos.
  - exact Hpos.
  - simpl. apply IH. exact Hc.
Qed.

(** Destructs the order tests of the goal and closes it by arithmetic. *)
Ltac by_cases_on_tests :=
  unfold inside, indicator; simpl fst; simpl snd;
  repeat match goal with
         | |- context [Py.ltb ?a ?b] => destruct (Py.ltb a b) eqn:?
         | |- context [Qle_bool ?a ?b] => destruct (Qle_bool a b) eqn:?
         end;
  order_facts; simpl; try reflexivity; exfalso; lra.

(** The loop of [split] over ascending cuts that all start after
    [thresh]: the clips it extracts and the cuts share out the span from
    the cursor to the end of the last cut. *)
Lemma split_loop_shares_out :
  (forall c n, ffmpeg c n = 0%Z) ->
  forall cuts pos elapsed t,
    ascending pos cuts ->
    Forall (fun c => inject_Z (thresh o) < fst c) cuts ->
    exists elapsed' t' segs,
      for_each cuts (split_cut ffmpeg o) (pos, elapsed) t
      = Ok (last_end pos cuts, elapsed') t'
      /\ segments t' = segments t ++ segs
      /\ pos <= last_end pos cuts
      /\ forall x, cover x (segs ++ cuts)
                   = indicator (Qle_bool pos x && Py.ltb x (last_end pos cuts)).
Proof.
  intros Hok cuts.
  induction cuts as [| [s e] rest IH]; intros pos elapsed t Hasc Hth.
  - exists elapsed, t, []. unfold last_end. simpl.
    repeat split.
    + now rewrite app_nil_r.
    + lra.
    + intros x. unfold cover. simpl. by_cases_on_tests.
  - simpl in Hasc. destruct Hasc as (Hps & Hse & Hrest).
    inversion Hth as [| c l Hs Hth']. subst. simpl in Hs.
    change (last_end pos ((s, e) :: rest)) with (last_end e rest).
    simpl for_each. unfold bind at 1. unfold split_cut.
    destruct (Py.gtb s (inject_Z (thresh o)) && Py.gtb s pos)%bool eqn:E.
    + unfold bind at 1. rewrite _extract_ok by apply Hok. unfold ret at 1.
      match goal with
      | |- context [for_each rest _ ?pe ?t1] =>
          destruct (IH e (snd pe) t1 Hrest Hth')
            as (el' & t' & segs & Hrun & Hsegs & Hle & Hcov)
      end.
      simpl snd in Hrun. exists el', t', ((pos, s) :: segs).
      split; [exact Hrun |]. split; [| split].
      * rewrite Hsegs. unfold segments. simpl. rewrite map_app. simpl.
        rewrite <- app_assoc. reflexivity.
      * lra.
      * intros x. specialize (Hcov x). rewrite cover_app in Hcov.
        simpl app. rewrite cover_cons, cover_app, cover_cons.
        apply emit_test in E.
        assert (Hsum : (cover x segs + cover x rest)%nat
                       = indicator (Qle_bool e x && Py.ltb x (last_end e rest)))
          by exact Hcov.
        clear Hcov Hrun.
        replace (indicator (inside x (pos, s))
                 + (cover x segs + (indicator (inside x (s, e)) + cover x rest)))%nat
          with (indicator (inside x (pos, s)) + indicator (inside x (s, e))
                + (cover x segs + cover x rest))%nat by lia.
        rewrite Hsum. by_cases_on_tests.
    + unfold bind at 1. unfold ret at 1.
      destruct (IH e (elapsed + (s - pos)) t Hrest Hth')
        as (el' & t' & segs & Hrun & Hsegs & Hle & Hcov).
      exists el', t', segs.
      split; [exact Hrun |]. split; [exact Hsegs | split].
      * lra.
      * intros x. specialize (Hcov x). rewrite cover_app in Hcov.
        rewrite cover_app, cover_cons.
        assert (Hnot : ~ pos < s).
        { intros H. assert (H' := proj2 (emit_test pos s) (conj Hs H)).
          congruence. }
        replace (cover x segs + (indicator (inside x (s, e)) + cover x rest))%nat
          with (indicator (inside x (s, e)) + (cover x segs + cover x rest))%nat
          by lia.
        rewrite Hcov. clear Hcov Hrun. by_cases_on_tests.
Qed.

(** C5 (as amended). With a threshold that is not negative and a
    recording longer than the threshold, for non-overlapping cuts sorted
    by start and strictly inside [(thresh, duration - thresh)], and an
    ffmpeg that extracts every clip: [split] returns, no instant lies in
    two of its clips, and every instant lies in exactly one clip or cut
    if it is in [[0, duration)] and in none otherwise. *)
Theorem split_shares_out_recording (src : source) :
  (forall c n, ffmpeg c n = 0%Z) ->
  0 <= inject_Z (thresh o) ->
  inject_Z (thresh o) < duration src ->
  sorted_cuts (cutlist src) ->
  inside_window (inject_Z (thresh o)) (duration src) (cutlist src) ->
  exists t,
    split ffmpeg o src init = Ok tt t
    /\ (forall x, (cover x (segments t) <= 1)%nat)
    /\ (forall x, cover x (segments t ++ cutlist src)
                  = indicator (Qle_bool 0 x && Py.ltb x (duration src))).
Proof.
  intros Hok Hth Hdur Hsorted Hwin.
  assert (Hasc : ascending 0 (cutlist src)).
  { unfold sorted_cuts in Hsorted.
    destruct (cutlist src) as [| [s e] rest] eqn:Ec; [exact I |].
    apply (ascending_weaken s); [| exact Hsorted].
    inversion Hwin as [| c l Hc _]. subst. simpl in Hc. lra. }
  assert (Hstarts : Forall (fun c => inject_Z (thresh o) < fst c) (cutlist src)).
  { eapply Forall_impl; [| exact Hwin]. simpl. tauto. }
  assert (Hends : last_end 0 (cutlist src) < duration src - inject_Z (thresh o)).
  { apply last_end_below; [| lra].
    eapply Forall_impl; [| exact Hwin]. simpl. tauto. }
  destruct (split_loop_shares_out Hok (cutlist src) 0 0 init Hasc Hstarts)
    as (el' & t1 & segs & Hrun & Hsegs & Hle & Hcov).
  unfold split. unfold bind at 1. rewrite Hrun.
  apply ltb_lt in Hends. rewrite Hends. apply ltb_lt in Hends.
  unfold bind. rewrite _extract_ok by apply Hok. simpl.
  eexists. split; [reflexivity |].
  assert (Hall : forall x,
    cover x ((segments t1 ++ [(last_end 0 (cutlist src), duration src)])
               ++ cutlist src)
    = indicator (Qle_bool 0 x && Py.ltb x (duration src))).
  { intros x. specialize (Hcov x). rewrite cover_app in Hcov.
    rewrite Hsegs. simpl. rewrite !cover_app, cover_cons.
    unfold cover at 2. simpl List.length.
    replace (cover x segs + (indicator (inside x (last_end 0 (cutlist src), duration src)) + 0)
             + cover x (cutlist src))%nat
      with (indicator (inside x (last_end 0 (cutlist src), duration src))
            + (cover x segs + cover x (cutlist src)))%nat by lia.
    rewrite Hcov. clear Hcov Hrun. by_cases_on_tests. }
  match goal with
  | |- context [segments ?t2] =>
      assert (Hsegs' : segments t2
                       = segments t1 ++ [(last_end 0 (cutlist src), duration src)])
        by (unfold segments; simpl; rewrite map_app; reflexivity)
  end.
  rewrite Hsegs'. split.
  - intros x. specialize (Hall x). rewrite cover_app in Hall.
    destruct (Qle_bool 0 x && Py.ltb x (duration src))%bool;
      unfold indicator in Hall; lia.
  - exact Hall.
Qed.

End Planner.

(** *** The planner on concrete recordings *)

(** The run of [split] on the recording with two breaks. *)
Lemma two_breaks_run :
  split always_ok default_opts two_breaks init
  = Ok tt {| seg := 3;
             chapters := [(0, Some 0%nat); (20, Some 1%nat); (50, Some 2%nat);
                          (85, None)];
             marks := [20; 60; 100];
             cmds := [((0, 20), 0%nat); ((30, 60), 1%nat);
                      ((65, 100), 2%nat)] |}.
Proof. reflexivity. Qed.

Lemma split_marks_are_clip_ends_witness :
  marks (final (split always_ok default_opts two_breaks init))
  = map snd (segments (final (split always_ok default_opts two_breaks init))).
Proof.
  rewrite two_breaks_run.
  apply (split_marks_are_clip_ends always_ok default_opts two_breaks).
  exact two_breaks_run.
Defined.

(** C1 (as stated) fails: with cuts [(20,30)] and [(60,65)] in a recording
    of 100 seconds, the cutpoints marked for the captions are 20, 60 and
    100, the ends of the clips in the source, while the kept duration up
    to the end of each clip is 20, 50 and 85. *)
Lemma marks_are_not_output_times :
  marks (final (split always_ok default_opts two_breaks init)) = [20; 60; 100]
  /\ kept_upto 0 (segments (final (split always_ok default_opts two_breaks init)))
     = [20; 50; 85]
  /\ ~ Forall2 Qeq
         (marks (final (split always_ok default_opts two_breaks init)))
         (kept_upto 0 (segments (final (split always_ok default_opts two_breaks init)))).
Proof.
  split; [reflexivity |]. split; [reflexivity |].
  intros H. vm_compute in H.
  inversion H as [| a b l l' _ Htail]. subst.
  inversion Htail as [| a b l l' Hhead _]. subst.
  discriminate Hhead.
Qed.

(** C2 (as stated) fails: after the cut [(10,20)], the cut [(22,30)] is
    met with the cursor at 20, and the clip [(20,22)] is extracted although
    its length, 2 seconds, is below the threshold of 5. *)
Lemma short_clip_is_extracted :
  for_each [(10, 20)] (split_cut always_ok default_opts) (0, 0) init
  = Ok (20, 10) {| seg := 1; chapters := [(0, Some 0%nat)];
                   marks := [10]; cmds := [((0, 10), 0%nat)] |}
  /\ segments (final (split always_ok default_opts
                        (Source [(10, 20); (22, 30)] 100) init))
     = [(0, 10); (20, 22); (30, 100)]
  /\ ~ inject_Z (thresh default_opts) < 22 - 20.
Proof.
  split; [reflexivity |]. split; [reflexivity |].
  intros H. vm_compute in H. discriminate H.
Qed.

(** C3: a head shorter than the threshold is dropped, and [elapsed] is
    advanced by its length all the same. With the cut [(3,10)] in a
    recording of 100 seconds, the only clip is [(10,100)]; its chapter is
    put at 3 although nothing was extracted before it, and the closing
    chapter at 93 although 90 seconds are kept. *)
Theorem dropped_head_advances_elapsed :
  split always_ok default_opts (Source [(3, 10)] 100) init
  = Ok tt {| seg := 1;
             chapters := [(3, Some 0%nat); (93, None)];
             marks := [100];
             cmds := [((10, 100), 0%nat)] |}.
Proof. reflexivity. Qed.

Lemma split_checks_nothing_witness :
  exists t, split always_ok default_opts (Source [(30, 20)] 100) init = Ok tt t.
Proof.
  apply (proj2 (split_checks_nothing always_ok default_opts
                                     (Source [(30, 20)] 100))).
  intros c n. reflexivity.
Defined.

(** C4 (as stated) fails: the Cutlist [(30,20)], whose cut ends before it
    starts, is not rejected; [split] returns after two extractions. *)
Lemma invalid_cutlist_is_planned :
  valid_cutlist 100 [(30, 20)] = false
  /\ split always_ok default_opts (Source [(30, 20)] 100) init
     = Ok tt {| seg := 2;
                chapters := [(0, Some 0%nat); (30, Some 1%nat); (110, None)];
                marks := [30; 100];
                cmds := [((0, 30), 0%nat); ((20, 100), 1%nat)] |}.
Proof. split; reflexivity. Qed.

Lemma split_shares_out_recording_witness :
  exists t,
    split always_ok default_opts two_breaks init = Ok tt t
    /\ (forall x, (cover x (segments t) <= 1)%nat)
    /\ (forall x, cover x (segments t ++ cutlist two_breaks)
                  = indicator (Qle_bool 0 x && Py.ltb x (duration two_breaks))).
Proof.
  apply (split_shares_out_recording always_ok default_opts two_breaks).
  - intros c n. reflexivity.
  - vm_compute. discriminate.
  - vm_compute. reflexivity.
  - simpl. repeat split; vm_compute; (reflexivity || discriminate).
  - repeat constructor; vm_compute; reflexivity.
Defined.

(** C5 (as stated) fails: a recording of 3 seconds with no cut and the
    threshold of 5 gets no clip at all, so that the instant 1 of the
    recording lies in no clip and no cut. *)
Lemma short_recording_is_not_covered :
  sorted_cuts [] /\ inside_window (inject_Z (thresh default_opts)) 3 []
  /\ split always_ok default_opts (Source [] 3) init
     = Ok tt {| seg := 0; chapters := [(0, None)]; marks := []; cmds := [] |}
  /\ (Qle_bool 0 1 && Py.ltb 1 3)%bool = true
  /\ cover 1 (segments (final (split always_ok default_opts (Source [] 3) init))
                ++ [])
     = 0%nat.
Proof.
  split; [exact I |]. split; [constructor |]. repeat split; reflexivity.
Qed.

(** C6 (as amended). With [duration = 100], [thresh = 5] and the cuts
    [(20,30)] and [(60,65)], [split] extracts the clips [(0,20)], [(30,60)]
    and [(65,100)], puts their chapters at the elapsed values 0, 20 and 50,
    and the closing chapter at 85. *)
Theorem split_two_breaks :
  split always_ok default_opts two_breaks init
  = Ok tt {| seg := 3;
             chapters := [(0, Some 0%nat); (20, Some 1%nat); (50, Some 2%nat);
                          (85, None)];
             marks := [20; 60; 100];
             cmds := [((0, 20), 0%nat); ((30, 60), 1%nat);
                      ((65, 100), 2%nat)] |}.
Proof. reflexivity. Qed.

(** C6 (as stated) fails: the chapters are not at 0, 30, 65 and 100; the
    second one is at 20. *)
Lemma chapters_are_not_source_positions :
  markers (final (split always_ok default_opts two_breaks init))
  = [0; 20; 50; 85]
  /\ ~ Forall2 Qeq
         (markers (final (split always_ok default_opts two_breaks init)))
         [0; 30; 65; 100].
Proof.
  split; [reflexivity |].
  intros H. vm_compute in H.
  inversion H as [| a b l l' _ Htail]. subst.
  inversion Htail as [| a b l l' Hhead _]. subst.
  discriminate Hhead.
Qed.

(** ** Caption resynchronization *)

Section Resync.

Import Subtitles.

Variable marks : list Q.

(** After a caption the delay has not grown; with a delay that is not
    positive, neither time of the caption is moved later. *)
Lemma adjust_times_earlier (delay : Q) (curr : nat) (c : Q * Q) :
  fst (fst (adjust_times marks (delay, curr) c)) <= delay
  /\ (delay <= 0 ->
      fst (snd (adjust_times marks (delay, curr) c)) <= fst c
      /\ snd (snd (adjust_times marks (delay, curr) c)) <= snd c).
Proof.
  destruct c as [s e]. unfold adjust_times.
  destruct (curr <? List.length marks)%nat; cbn [andb].
  - destruct (Py.ltb (nth curr marks 0) (e + delay)) eqn:E1.
    + destruct (Py.gtb (nth curr marks 0) (s + delay)) eqn:E2;
        order_facts; cbn [fst snd]; (split; [lra | intros H; split; lra]).
    + cbn [fst snd]. split; [lra | intros H; split; lra].
  - cbn [fst snd]. split; [lra | intros H; split; lra].
Qed.

Lemma adjust_pass_earlier (caps : list (Q * Q)) :
  forall delay curr,
    delay <= 0 ->
    nonincreasing delay (delays marks (delay, curr) caps)
    /\ Forall (fun d => d <= 0) (delays marks (delay, curr) caps)
    /\ Forall2 (fun c c' => fst c' <= fst c /\ snd c' <= snd c)
               caps (adjust_captions marks (delay, curr) caps).
Proof.
  induction caps as [| c caps IH]; intros delay curr Hd.
  - cbn [delays adjust_captions nonincreasing].
    split; [exact I | split; constructor].
  - cbn [delays adjust_captions].
    destruct (adjust_times_earlier delay curr c) as [H1 H2].
    specialize (H2 Hd).
    destruct (adjust_times marks (delay, curr) c) as [[d' c'] se'] eqn:E.
    cbn [fst snd] in H1, H2. cbn [fst snd nonincreasing].
    assert (Hd' : d' <= 0) by lra.
    destruct (IH d' c' Hd') as (I1 & I2 & I3).
    split; [split; [exact H1 | exact I1] |].
    split.
    + constructor; assumption.
    + constructor; [exact H2 | exact I3].
Qed.

(** C9. In a pass of [adjust], which starts with a delay of 0, the delay
    never rises from one caption to the next and is never positive, and
    no caption gets a start or an end later than the one it had. *)
Theorem adjust_never_delays (caps : list (Q * Q)) :
  nonincreasing 0 (delays marks (0, 0%nat) caps)
  /\ Forall (fun d => d <= 0) (delays marks (0, 0%nat) caps)
  /\ Forall2 (fun c c' => fst c' <= fst c /\ snd c' <= snd c)
             caps (adjust_captions marks (0, 0%nat) caps).
Proof.
  apply adjust_pass_earlier. lra.
Qed.

(** The loop of [adjust] writes the lines of the file with the times
    that [adjust_captions] gives to its captions. *)
Lemma adjust_loop_renders (srt : list line) :
  forall dc out,
    snd (fold_left (adjust_line marks) srt (dc, out))
    = (out ++ render srt (adjust_captions marks dc (captions srt)))%list.
Proof.
  induction srt as [| l srt IH]; intros dc out.
  - simpl. now rewrite app_nil_r.
  - cbn [fold_left]. unfold captions. cbn [flat_map]. fold (captions srt).
    cbn [render]. unfold adjust_line at 2.
    destruct (search l) as [m |] eqn:Em.
    + cbn [app adjust_captions].
      destruct (adjust_times marks dc (_convert_timestamp m))
        as [dc' [s' e']] eqn:E.
      rewrite IH. rewrite <- app_assoc. reflexivity.
    + cbn [app]. rewrite IH. rewrite <- app_assoc. reflexivity.
Qed.

Lemma adjust_renders (srt : list line) :
  marks <> [] ->
  adjust marks srt = render srt (adjust_captions marks (0, 0%nat) (captions srt)).
Proof.
  intros Hm. unfold adjust.
  destruct (List.length marks =? 0)%nat eqn:E.
  - apply Nat.eqb_eq, length_zero_iff_nil in E. contradiction.
  - apply (adjust_loop_renders srt (0, 0%nat) []).
Qed.

(** C7. With a delay of 0, the caption [(10.0, 12.0)] whose next
    unconsumed cutpoint is 11.0 becomes [(10.0, 11.0)]; the cutpoint is
    consumed and the delay becomes -1.0, so that the pass goes on over
    the following captions one second earlier. *)
Theorem adjust_clips_straddling_caption (curr : nat) (rest : list (Q * Q)) :
  nth_error marks curr = Some 11 ->
  adjust_times marks (0, curr) (10, 12) = ((-1, S curr), (10, 11))
  /\ adjust_captions marks (0, curr) ((10, 12) :: rest)
     = (10, 11) :: adjust_captions marks (-1, S curr) rest
  /\ (nth_error marks (S curr) = None ->
      adjust_captions marks (-1, S curr) rest
      = map (fun c => (fst c + -1, snd c + -1)) rest).
Proof.
  intros Hm.
  assert (Hlt : (curr <? List.length marks)%nat = true).
  { apply Nat.ltb_lt. apply nth_error_Some. congruence. }
  assert (Hnth : nth curr marks 0 = 11).
  { apply nth_error_nth. exact Hm. }
  assert (Hstep : adjust_times marks (0, curr) (10, 12) = ((-1, S curr), (10, 11))).
  { unfold adjust_times. rewrite Hlt, Hnth. reflexivity. }
  split; [exact Hstep |]. split.
  - cbn [adjust_captions]. rewrite Hstep. reflexivity.
  - intros Hend.
    assert (Hge : (S curr <? List.length marks)%nat = false).
    { apply Nat.ltb_ge. apply nth_error_None. exact Hend. }
    induction rest as [| [s e] rest' IH]; [reflexivity |].
    cbn [adjust_captions map fst snd]. unfold adjust_times at 1.
    rewrite Hge. cbn [andb]. rewrite IH. reflexivity.
Qed.

End Resync.

Lemma adjust_clips_straddling_caption_witness :
  Subtitles.adjust_times [11] (0, 0%nat) (10, 12) = ((-1, 1%nat), (10, 11))
  /\ Subtitles.adjust_captions [11] (0, 0%nat) [(10, 12); (20, 21)]
     = (10, 11) :: Subtitles.adjust_captions [11] (-1, 1%nat) [(20, 21)]
  /\ (nth_error [11] 1 = None ->
      Subtitles.adjust_captions [11] (-1, 1%nat) [(20, 21)]
      = map (fun c => (fst c + -1, snd c + -1)) [(20, 21)]).
Proof.
  apply (adjust_clips_straddling_caption [11] 0 [(20, 21)]). reflexivity.
Defined.

(** The caption of the example of C7 through the file: the line
    [00:00:10,000 --> 00:00:12,000] is written back with its end at 11. *)
Example adjust_caption_10_12 :
  Subtitles.adjust [11] [caption_10_12]
  = [("00:00:10,000 --> 00:00:11,000" ++ nl)%string].
Proof. reflexivity. Qed.

(** C10: the fraction of a second is rounded to milliseconds without a
    carry. For 59.9996 seconds the field of the milliseconds is [1000],
    four digits; and [adjust] writes such a timestamp when a caption from
    59 to 61 seconds is clipped at a cutpoint of 59.9996 seconds. *)
Theorem millis_round_up_to_1000 :
  _seconds_to_time_frac (599996 # 10000) true = "00:00:59,1000"%string
  /\ Subtitles.adjust [599996 # 10000] [caption_59_61]
     = [("00:00:59,000 --> 00:00:59,1000" ++ nl)%string].
Proof. split; reflexivity. Qed.

(** ** Stream selection *)

Section Streams.

Variable o : opts.

Lemma probed_video_pids (report : list probe_line) :
  map fst (probed_video report) = video_pids report.
Proof.
  unfold probed_video, video_pids.
  induction report as [| l report IH]; [reflexivity |].
  cbn [flat_map]. rewrite map_app, IH.
  destruct (video_pid l); reflexivity.
Qed.

(** The loop over a report in which no audio stream has the language
    asked for: every audio stream is recorded as not enabled. *)
Lemma probe_loop_no_match (report : list probe_line) :
  (forall l pid tag,
      In l report -> audio_pid l = Some pid -> audio_lang l = Some tag ->
      exists code, lookup (language o) languages = Some code /\ tag <> code) ->
  forall vs aus,
    for_each report (probe o) (vs, aus) tt
    = Ok ((vs ++ probed_video report)%list,
          (aus ++ map (fun p => (p, false)) (audio_pids report))%list) tt.
Proof.
  induction report as [| l report IH]; intros Hno vs aus.
  - cbn. rewrite !app_nil_r. reflexivity.
  - assert (Hrest : forall l' pid tag,
               In l' report -> audio_pid l' = Some pid ->
               audio_lang l' = Some tag ->
               exists code, lookup (language o) languages = Some code
                            /\ tag <> code).
    { intros l' pid tag Hin. apply Hno. now right. }
    specialize (IH Hrest).
    cbn [for_each]. unfold bind at 1. unfold probe at 1.
    unfold probed_video, audio_pids. cbn [flat_map].
    fold (probed_video report). fold (audio_pids report).
    destruct (audio_pid l) as [pid |] eqn:Ea.
    + destruct (audio_lang l) as [tag |] eqn:El.
      * destruct (Hno l pid tag (or_introl eq_refl) Ea El)
          as (code & Hcode & Hneq).
        unfold _iso_639_2, bind, ret. rewrite Hcode.
        apply String.eqb_neq in Hneq. rewrite Hneq.
        rewrite IH. rewrite map_app. cbn [map app].
        destruct (video_pid l); cbn [app]; rewrite <- ?app_assoc; reflexivity.
      * unfold bind, ret. rewrite IH. rewrite map_app. cbn [map app].
        destruct (video_pid l); cbn [app]; rewrite <- ?app_assoc; reflexivity.
    + unfold bind, ret. rewrite IH. cbn [map app].
      destruct (video_pid l); cbn [app]; rewrite <- ?app_assoc; reflexivity.
Qed.

Lemma enabled_count_none (pids : list Z) :
  enabled_count (map (fun p => (p, false)) pids) = 0%nat.
Proof.
  unfold enabled_count. induction pids as [| p pids IH]; [reflexivity |].
  cbn [map filter snd]. exact IH.
Qed.

Lemma no_audio_line (report : list probe_line) :
  audio_pids report = [] ->
  forall l pid, In l report -> audio_pid l = Some pid -> False.
Proof.
  unfold audio_pids. induction report as [| l0 report IH]; intros H l pid Hin Hl.
  - exact Hin.
  - cbn [flat_map] in H. apply app_eq_nil in H. destruct H as [H0 Hr].
    destruct Hin as [-> | Hin].
    + rewrite Hl in H0. discriminate.
    + exact (IH Hr l pid Hin Hl).
Qed.

(** C8 (as amended). With no audio stream in the report, [_find_streams]
    raises a [RuntimeError]. With a language of the table, at least one
    audio stream, none of them tagged with the three-letter code of the
    language, and at least one video stream, [_find_streams] returns, the
    first audio stream of the report enabled and the others not. *)
Theorem find_streams_audio_fallback (report : list probe_line) :
  (audio_pids report = [] ->
   exists msg, _find_streams o report tt = Raise (RuntimeError msg) tt)
  /\ (forall code p rest,
         lookup (language o) languages = Some code ->
         (forall l pid tag,
             In l report -> audio_pid l = Some pid ->
             audio_lang l = Some tag -> tag <> code) ->
         audio_pids report = p :: rest ->
         video_pids report <> [] ->
         exists vs,
           _find_streams o report tt
           = Ok (vs, (p, true) :: map (fun q => (q, false)) rest) tt).
Proof.
  split.
  - intros Hnone. unfold _find_streams. unfold bind at 1.
    rewrite probe_loop_no_match.
    + rewrite Hnone. cbn [map app].
      destruct (probed_video report) as [| v vs];
        cbn; eexists; reflexivity.
    + intros l pid tag Hin Ha _. exfalso.
      exact (no_audio_line report Hnone l pid Hin Ha).
  - intros code p rest Hcode Hno Hau Hvid.
    unfold _find_streams. unfold bind at 1.
    rewrite probe_loop_no_match.
    + rewrite Hau. cbn [map app].
      destruct (probed_video report) as [| v vs] eqn:Ev.
      * exfalso. apply Hvid. rewrite <- probed_video_pids, Ev. reflexivity.
      * cbn [List.length Nat.eqb]. unfold bind, ret.
        change (enabled_count ((p, false) :: map (fun q => (q, false)) rest))
          with (enabled_count (map (fun q => (q, false)) (p :: rest))).
        rewrite enabled_count_none. cbn [Nat.eqb enable_first].
        eexists. reflexivity.
    + intros l pid tag Hin Ha Hl. exists code. split; [exact Hcode |].
      exact (Hno l pid tag Hin Ha Hl).
Qed.

End Streams.

Lemma find_streams_audio_fallback_witness :
  (exists msg,
      _find_streams default_opts [ProbeLine (Some 17%Z) true None None] tt
      = Raise (RuntimeError msg) tt)
  /\ (exists vs,
         _find_streams default_opts french_report tt
         = Ok (vs, (20%Z, true) :: map (fun q => (q, false)) [21%Z]) tt).
Proof.
  split.
  - apply (proj1 (find_streams_audio_fallback default_opts
                    [ProbeLine (Some 17%Z) true None None])).
    reflexivity.
  - apply (proj2 (find_streams_audio_fallback default_opts french_report)
                 "eng"%string 20%Z [21%Z]).
    + reflexivity.
    + intros l pid tag [<- | [<- | [<- | []]]] Ha Hl;
        cbn in Ha, Hl; try discriminate.
      inversion Hl. discriminate.
    + reflexivity.
    + discriminate.
Defined.

(** C8 (as stated) fails: with the language [en], a report that holds one
    audio stream, in French, and no video stream makes [_find_streams]
    raise, although an audio stream exists and none has the language. *)
Lemma audio_exists_yet_selection_fails :
  audio_pids audio_only = [20%Z]
  /\ lookup (language default_opts) languages = Some "eng"%string
  /\ _find_streams default_opts audio_only tt
     = Raise (RuntimeError "No video streams could be found.") tt.
Proof. repeat split. Qed.

(** ** More on the planner *)

Lemma for_each_raises_from {S X A} (P : S -> Prop) (R : exn -> S -> Prop)
    (body : A -> X -> M S A) :
  (forall a x s a' s', P s -> body a x s = Ok a' s' -> P s') ->
  (forall a x s e s', P s -> body a x s = Raise e s' -> R e s') ->
  forall l a s e s', P s -> for_each l body a s = Raise e s' -> R e s'.
Proof.
  intros Hok Hraise l. induction l as [| x l IH]; intros a s e s' HP Hrun.
  - discriminate.
  - simpl in Hrun. unfold bind in Hrun.
    destruct (body a x s) as [a1 s1 | e1 s1] eqn:E.
    + eapply IH; [eapply Hok; eassumption | eassumption].
    + inversion Hrun. subst. eapply Hraise; eassumption.
Qed.

Section Bookkeeping.

Variable ffmpeg : Q * Q -> nat -> Z.
Variable o : opts.

Lemma _extract_numbered clip elapsed t t' :
  numbered t -> _extract ffmpeg clip elapsed t = Ok tt t' -> numbered t'.
Proof.
  intros (Hc & Hk & Hm) Hrun.
  destruct (Z.eq_dec (ffmpeg clip (seg t)) 0) as [E | E].
  - rewrite _extract_ok in Hrun by exact E. inversion Hrun.
    unfold numbered. cbn [seg chapters cmds marks].
    rewrite !map_app, Hc, Hk, seq_S, map_app, !length_app, Hm.
    cbn. repeat split. lia.
  - rewrite _extract_fails in Hrun by exact E. discriminate.
Qed.

Lemma _extract_interrupted clip elapsed t e t' :
  numbered t -> _extract ffmpeg clip elapsed t = Raise e t' -> interrupted t'.
Proof.
  intros (Hc & Hk & Hm) Hrun.
  destruct (Z.eq_dec (ffmpeg clip (seg t)) 0) as [E | E].
  - rewrite _extract_ok in Hrun by exact E. discriminate.
  - rewrite _extract_fails in Hrun by exact E. inversion Hrun.
    unfold interrupted. cbn [seg chapters cmds marks].
    rewrite !map_app, Hc, Hk, seq_S, map_app. cbn. repeat split. exact Hm.
Qed.

Lemma split_cut_numbered pe cut t pe' t' :
  numbered t -> split_cut ffmpeg o pe cut t = Ok pe' t' -> numbered t'.
Proof.
  destruct pe as [pos elapsed], cut as [start end_]. unfold split_cut.
  intros Hn Hrun. unfold bind in Hrun.
  destruct (Py.gtb start (inject_Z (thresh o)) && Py.gtb start pos)%bool.
  - destruct (_extract ffmpeg (pos, start) elapsed t) as [[] t1 | e t1] eqn:E;
      [| discriminate].
    inversion Hrun. subst. eapply _extract_numbered; eassumption.
  - inversion Hrun. subst. exact Hn.
Qed.

Lemma split_cut_interrupted pe cut t e t' :
  numbered t -> split_cut ffmpeg o pe cut t = Raise e t' -> interrupted t'.
Proof.
  destruct pe as [pos elapsed], cut as [start end_]. unfold split_cut.
  intros Hn Hrun. unfold bind in Hrun.
  destruct (Py.gtb start (inject_Z (thresh o)) && Py.gtb start pos)%bool.
  - destruct (_extract ffmpeg (pos, start) elapsed t) as [[] t1 | e1 t1] eqn:E;
      [discriminate |].
    inversion Hrun. subst. eapply _extract_interrupted; eassumption.
  - discriminate.
Qed.

Lemma init_numbered : numbered init.
Proof. repeat split. Qed.

(** X1. When [split] returns, the chapter object has received one chapter
    for each extracted clip, labelled with the numbers 0, 1, ... of the
    segments in order, and then one closing chapter without label, the
    last; the commands given to ffmpeg carry the same numbers, [seg] is
    the number of clips and one cutpoint is marked for each clip. *)
Theorem split_numbers_chapters (src : source) (t : transcoder) :
  split ffmpeg o src init = Ok tt t ->
  map snd (chapters t) = (map Some (seq 0 (seg t)) ++ [None])%list
  /\ map snd (cmds t) = seq 0 (seg t)
  /\ List.length (marks t) = seg t.
Proof.
  unfold split. intros Hrun. unfold bind at 1 in Hrun.
  destruct (for_each (cutlist src) (split_cut ffmpeg o) (0, 0) init)
    as [[pos elapsed] t1 | e t1] eqn:Eloop; [| discriminate].
  assert (H1 : numbered t1).
  { eapply (for_each_returns numbered); [| exact init_numbered | exact Eloop].
    intros a x s a' s'. apply split_cut_numbered. }
  unfold bind in Hrun.
  assert (Hclose : forall t2 el, numbered t2 ->
            map snd (chapters (final (chapters_add el None t2)))
            = (map Some (seq 0 (seg t2)) ++ [None])%list
            /\ map snd (cmds (final (chapters_add el None t2))) = seq 0 (seg t2)
            /\ List.length (marks (final (chapters_add el None t2))) = seg t2).
  { intros t2 el (Hc & Hk & Hm). cbn. rewrite map_app, Hc. repeat split; assumption. }
  destruct (Py.ltb pos (duration src - inject_Z (thresh o))).
  - destruct (_extract ffmpeg (pos, duration src) elapsed t1)
      as [[] t2 | e t2] eqn:E; [| discriminate].
    cbn in Hrun. inversion Hrun. subst.
    apply (Hclose t2 _ (_extract_numbered _ _ _ _ H1 E)).
  - cbn in Hrun. inversion Hrun. subst. apply (Hclose t1 _ H1).
Qed.

(** X2. When [split] raises, it stops at the extraction that failed: the
    chapter of that segment was added and its command issued, the last of
    each; no closing chapter was added, [seg] counts the clips extracted
    before, and no cutpoint is marked for the failed clip. *)
Theorem split_stops_at_failure (src : source) (e : exn) (t : transcoder) :
  split ffmpeg o src init = Raise e t ->
  map snd (chapters t) = map Some (seq 0 (S (seg t)))
  /\ map snd (cmds t) = seq 0 (S (seg t))
  /\ List.length (marks t) = seg t.
Proof.
  unfold split. intros Hrun. unfold bind at 1 in Hrun.
  destruct (for_each (cutlist src) (split_cut ffmpeg o) (0, 0) init)
    as [[pos elapsed] t1 | e1 t1] eqn:Eloop.
  - assert (H1 : numbered t1).
    { eapply (for_each_returns numbered); [| exact init_numbered | exact Eloop].
      intros a x s a' s'. apply split_cut_numbered. }
    unfold bind in Hrun.
    destruct (Py.ltb pos (duration src - inject_Z (thresh o)));
      [| discriminate].
    destruct (_extract ffmpeg (pos, duration src) elapsed t1)
      as [[] t2 | e2 t2] eqn:E; [discriminate |].
    inversion Hrun. subst. exact (_extract_interrupted _ _ _ _ _ H1 E).
  - inversion Hrun. subst.
    apply (for_each_raises_from numbered (fun _ => interrupted)
             (split_cut ffmpeg o) split_cut_numbered split_cut_interrupted
             _ _ _ _ _ init_numbered Eloop).
Qed.

Lemma split_cut_cmds_bound pe cut t :
  (List.length (cmds (final (split_cut ffmpeg o pe cut t)))
   <= List.length (cmds t) + 1)%nat.
Proof.
  destruct pe as [pos elapsed], cut as [start end_]. unfold split_cut.
  destruct (Py.gtb start (inject_Z (thresh o)) && Py.gtb start pos)%bool.
  - rewrite final_then_ret, _extract_cmds, length_app. cbn. lia.
  - cbn. lia.
Qed.

(** The loop of [split] issues at most one command for each cut. *)
Lemma split_loop_cmds_bound (cuts : list (Q * Q)) :
  forall pe t,
    (List.length (cmds (final (for_each cuts (split_cut ffmpeg o) pe t)))
     <= List.length (cmds t) + List.length cuts)%nat.
Proof.
  induction cuts as [| cut cuts IH]; intros pe t.
  - cbn. lia.
  - cbn [for_each]. unfold bind.
    assert (Hc := split_cut_cmds_bound pe cut t).
    destruct (split_cut ffmpeg o pe cut t) as [pe1 t1 | e t1];
      cbn [final] in Hc.
    + specialize (IH pe1 t1). cbn [List.length]. lia.
    + cbn [final List.length]. lia.
Qed.

(** X3. On every Cutlist, whatever ffmpeg does, [split] gives ffmpeg at
    most one clip for each cut and one more: at most N + 1 Segments for N
    cuts. *)
Theorem split_at_most_one_more (src : source) :
  (List.length (segments (final (split ffmpeg o src init)))
   <= List.length (cutlist src) + 1)%nat.
Proof.
  unfold segments. rewrite length_map. unfold split. unfold bind at 1.
  assert (Hloop := split_loop_cmds_bound (cutlist src) (0, 0) init).
  destruct (for_each (cutlist src) (split_cut ffmpeg o) (0, 0) init)
    as [[pos elapsed] t1 | e t1].
  - cbn [final] in Hloop. cbn [cmds init List.length] in Hloop.
    unfold bind.
    destruct (Py.ltb pos (duration src - inject_Z (thresh o))).
    + assert (Hc := _extract_cmds ffmpeg (pos, duration src) elapsed t1).
      destruct (_extract ffmpeg (pos, duration src) elapsed t1) as [[] t2 | e t2];
        cbn [final] in *; cbn; rewrite Hc, length_app; cbn [List.length]; lia.
    + cbn. lia.
  - cbn [final] in *. cbn [cmds init List.length] in Hloop. lia.
Qed.

(** *** The chapters on the output timeline *)

Lemma nondecreasing_snoc (l : list Q) :
  forall d a b,
    nondecreasing d (l ++ [a]) -> a <= b -> nondecreasing d ((l ++ [a]) ++ [b]).
Proof.
  induction l as [| x l IH]; intros d a b H Hab.
  - cbn in *. destruct H as [H _]. repeat split; assumption.
  - cbn [app nondecreasing] in *. destruct H as [H1 H2].
    split; [exact H1 | apply IH; assumption].
Qed.

Lemma nondecreasing_from (l : list Q) :
  forall d d', d' <= d -> nondecreasing d l -> nondecreasing d' l.
Proof.
  destruct l as [| x l]; intros d d' Hd H; [exact I |].
  cbn in *. destruct H as [H1 H2]. split; [lra | exact H2].
Qed.

(** Along ascending cuts the loop of [split] gives the chapter object
    elapsed values that never fall. *)
Lemma split_loop_markers_rise (cuts : list (Q * Q)) :
  forall pos elapsed t pe' t',
    ascending pos cuts ->
    for_each cuts (split_cut ffmpeg o) (pos, elapsed) t = Ok pe' t' ->
    fst pe' = last_end pos cuts
    /\ exists ms, markers t' = (markers t ++ ms)%list
                  /\ nondecreasing elapsed (ms ++ [snd pe']).
Proof.
  induction cuts as [| [s e] rest IH]; intros pos elapsed t pe' t' Hasc Hrun.
  - inversion Hrun. subst. split; [reflexivity |].
    exists []. rewrite app_nil_r. cbn. repeat split. lra.
  - cbn [ascending] in Hasc. destruct Hasc as (Hps & Hse & Hrest).
    change (last_end pos ((s, e) :: rest)) with (last_end e rest).
    cbn [for_each] in Hrun. unfold bind at 1 in Hrun. unfold split_cut in Hrun.
    destruct (Py.gtb s (inject_Z (thresh o)) && Py.gtb s pos)%bool.
    + unfold bind at 1 in Hrun.
      destruct (Z.eq_dec (ffmpeg (pos, s) (seg t)) 0) as [E | E].
      * rewrite _extract_ok in Hrun by exact E. unfold ret at 1 in Hrun.
        destruct (IH _ _ _ _ _ Hrest Hrun) as (Hpos & ms & Hms & Hnd).
        split; [exact Hpos |].
        exists (elapsed :: ms). split.
        -- rewrite Hms. unfold markers. cbn [chapters]. rewrite map_app.
           cbn [map fst]. rewrite <- app_assoc. reflexivity.
        -- cbn [app nondecreasing]. split; [lra |].
           apply (nondecreasing_from _ (elapsed + (s - pos))); [lra | exact Hnd].
      * rewrite _extract_fails in Hrun by exact E. discriminate.
    + unfold bind at 1 in Hrun. unfold ret at 1 in Hrun.
      destruct (IH _ _ _ _ _ Hrest Hrun) as (Hpos & ms & Hms & Hnd).
      split; [exact Hpos |].
      exists ms. split; [exact Hms |].
      apply (nondecreasing_from _ (elapsed + (s - pos))); [lra | exact Hnd].
Qed.

(** X4. For cuts in ascending order (each a proper interval that starts
    no earlier than the previous one ends, the first not before 0) and a
    threshold that is not negative, the elapsed values given to the
    chapter object when [split] returns never fall, and the first is not
    negative: the chapters are in the order of the output timeline. *)
Theorem split_markers_never_fall (src : source) (t : transcoder) :
  ascending 0 (cutlist src) ->
  0 <= inject_Z (thresh o) ->
  split ffmpeg o src init = Ok tt t ->
  nondecreasing 0 (markers t).
Proof.
  intros Hasc Hth Hrun. unfold split in Hrun. unfold bind at 1 in Hrun.
  destruct (for_each (cutlist src) (split_cut ffmpeg o) (0, 0) init)
    as [[pos elapsed] t1 | e t1] eqn:Eloop; [| discriminate].
  destruct (split_loop_markers_rise _ _ _ _ _ _ Hasc Eloop)
    as (Hpos & ms & Hms & Hnd).
  cbn [fst snd] in Hpos, Hnd. cbn [markers init chapters map app] in Hms.
  unfold bind in Hrun.
  destruct (Py.ltb pos (duration src - inject_Z (thresh o))) eqn:Etail.
  - destruct (Z.eq_dec (ffmpeg (pos, duration src) (seg t1)) 0) as [E | E].
    + rewrite _extract_ok in Hrun by exact E. cbn in Hrun. inversion Hrun.
      unfold markers. cbn [chapters]. rewrite !map_app.
      fold (markers t1). rewrite Hms. cbn [map fst].
      apply nondecreasing_snoc; [exact Hnd |].
      apply ltb_lt in Etail. lra.
    + rewrite _extract_fails in Hrun by exact E. discriminate.
  - cbn in Hrun. inversion Hrun.
    unfold markers. cbn [chapters]. rewrite map_app.
    fold (markers t1). rewrite Hms. exact Hnd.
Qed.

Lemma kept_upto_comp (segs : list (Q * Q)) :
  forall a b, a == b -> Forall2 Qeq (kept_upto a segs) (kept_upto b segs).
Proof.
  induction segs as [| [p q] segs IH]; intros a b Hab; cbn [kept_upto].
  - constructor.
  - constructor; [rewrite Hab; reflexivity |].
    apply IH. rewrite Hab. reflexivity.
Qed.

Lemma Forall2_Qeq_trans (l1 l2 l3 : list Q) :
  Forall2 Qeq l1 l2 -> Forall2 Qeq l2 l3 -> Forall2 Qeq l1 l3.
Proof.
  intros H. revert l3. induction H as [| x y l1 l2 Hxy _ IH]; intros l3 H3.
  - inversion H3. constructor.
  - inversion H3 as [| y' z l2' l3' Hyz Hrest]. subst.
    constructor; [rewrite Hxy; exact Hyz | apply IH; exact Hrest].
Qed.

Lemma kept_upto_snoc (p q : Q) (segs : list (Q * Q)) :
  forall acc ms el,
    Forall2 Qeq (ms ++ [el]) (acc :: kept_upto acc segs) ->
    Forall2 Qeq ((ms ++ [el]) ++ [el + (q - p)])
            (acc :: kept_upto acc (segs ++ [(p, q)])).
Proof.
  induction segs as [| [a b] segs IH]; intros acc ms el H.
  - cbn [kept_upto app] in *.
    destruct ms as [| m ms].
    + cbn [app] in *. inversion H as [| x y l l' Hx Hl]. subst.
      constructor; [exact Hx |]. constructor; [| constructor].
      rewrite Hx. reflexivity.
    + cbn [app] in H. inversion H as [| x y l l' Hx Hl]. subst.
      destruct ms; inversion Hl.
  - cbn [kept_upto app] in *.
    destruct ms as [| m ms].
    + cbn [app] in H. inversion H as [| x y l l' Hx Hl]. subst. inversion Hl.
    + cbn [app] in *. inversion H as [| x y l l' Hx Hl]. subst.
      constructor; [exact Hx |]. apply IH. exact Hl.
Qed.

(** Along ascending cuts that all start after [thresh], with an ffmpeg
    that extracts every clip, each chapter of the loop is at the total
    length of the clips before it. *)
Lemma split_loop_markers_kept :
  (forall c n, ffmpeg c n = 0%Z) ->
  forall cuts pos elapsed t,
    ascending pos cuts ->
    Forall (fun c => inject_Z (thresh o) < fst c) cuts ->
    exists el' t' segs ms,
      for_each cuts (split_cut ffmpeg o) (pos, elapsed) t
      = Ok (last_end pos cuts, el') t'
      /\ segments t' = (segments t ++ segs)%list
      /\ markers t' = (markers t ++ ms)%list
      /\ Forall2 Qeq (ms ++ [el']) (elapsed :: kept_upto elapsed segs).
Proof.
  intros Hok cuts.
  induction cuts as [| [s e] rest IH]; intros pos elapsed t Hasc Hth.
  - exists elapsed, t, [], []. cbn. rewrite !app_nil_r.
    repeat split. constructor; [reflexivity | constructor].
  - cbn [ascending] in Hasc. destruct Hasc as (Hps & Hse & Hrest).
    inversion Hth as [| c l Hs Hth']. subst. cbn [fst] in Hs.
    change (last_end pos ((s, e) :: rest)) with (last_end e rest).
    cbn [for_each]. unfold bind at 1. unfold split_cut.
    destruct (Py.gtb s (inject_Z (thresh o)) && Py.gtb s pos)%bool eqn:E.
    + unfold bind at 1. rewrite _extract_ok by apply Hok. unfold ret at 1.
      match goal with
      | |- context [for_each rest _ ?pe ?t1] =>
          destruct (IH e (snd pe) t1 Hrest Hth')
            as (el' & t' & segs & ms & Hrun & Hsegs & Hms & Hkept)
      end.
      cbn [snd] in Hrun, Hkept.
      exists el', t', ((pos, s) :: segs), (elapsed :: ms).
      split; [exact Hrun |]. split; [| split].
      * rewrite Hsegs. unfold segments. cbn [cmds]. rewrite map_app.
        cbn [map fst]. rewrite <- app_assoc. reflexivity.
      * rewrite Hms. unfold markers. cbn [chapters]. rewrite map_app.
        cbn [map fst]. rewrite <- app_assoc. reflexivity.
      * cbn [app kept_upto]. constructor; [reflexivity | exact Hkept].
    + unfold bind at 1. unfold ret at 1.
      destruct (IH e (elapsed + (s - pos)) t Hrest Hth')
        as (el' & t' & segs & ms & Hrun & Hsegs & Hms & Hkept).
      exists el', t', segs, ms.
      split; [exact Hrun |]. split; [exact Hsegs |]. split; [exact Hms |].
      assert (Hsame : elapsed + (s - pos) == elapsed).
      { assert (Hnot : ~ pos < s).
        { intros H. assert (H' := proj2 (emit_test o pos s) (conj Hs H)).
          congruence. }
        lra. }
      apply (Forall2_Qeq_trans _ _ _ Hkept).
      constructor; [exact Hsame | apply kept_upto_comp; exact Hsame].
Qed.

(** X5. For cuts in ascending order that all start after [thresh] seconds,
    and an ffmpeg that extracts every clip, [split] returns with every
    chapter at the total length of the clips extracted before it, and the
    closing chapter at the total length of all the clips: the elapsed
    values are those of the output timeline. *)
Theorem split_markers_are_kept_time (src : source) :
  (forall c n, ffmpeg c n = 0%Z) ->
  ascending 0 (cutlist src) ->
  Forall (fun c => inject_Z (thresh o) < fst c) (cutlist src) ->
  exists t,
    split ffmpeg o src init = Ok tt t
    /\ Forall2 Qeq (markers t) (0 :: kept_upto 0 (segments t)).
Proof.
  intros Hok Hasc Hth.
  destruct (split_loop_markers_kept Hok (cutlist src) 0 0 init Hasc Hth)
    as (el' & t1 & segs & ms & Hrun & Hsegs & Hms & Hkept).
  cbn [segments markers init cmds chapters map app] in Hsegs, Hms.
  unfold split. unfold bind at 1. rewrite Hrun. unfold bind.
  destruct (Py.ltb (last_end 0 (cutlist src)) (duration src - inject_Z (thresh o))).
  - rewrite _extract_ok by apply Hok. cbn.
    eexists. split; [reflexivity |].
    unfold markers, segments. cbn [chapters cmds]. rewrite !map_app.
    fold (markers t1). fold (segments t1). rewrite Hms, Hsegs. cbn [map fst].
    rewrite <- app_assoc. cbn [app].
    change (ms ++ [el'; el' + (duration src - last_end 0 (cutlist src))])%list
      with (ms ++ [el'] ++ [el' + (duration src - last_end 0 (cutlist src))])%list.
    rewrite app_assoc. apply kept_upto_snoc. exact Hkept.
  - cbn. eexists. split; [reflexivity |].
    unfold markers, segments. cbn [chapters cmds]. rewrite map_app.
    fold (markers t1). fold (segments t1). rewrite Hms, Hsegs. exact Hkept.
Qed.

End Bookkeeping.

Lemma two_breaks_done_run :
  split always_ok default_opts two_breaks init = Ok tt two_breaks_done.
Proof. reflexivity. Qed.

Lemma two_breaks_failed_run :
  split fails_second default_opts two_breaks init
  = Raise (RuntimeError "Unexpected return code") two_breaks_failed.
Proof. reflexivity. Qed.

Lemma ascending_two_breaks : ascending 0 (cutlist two_breaks).
Proof.
  cbn. repeat split; vm_compute; (reflexivity || discriminate).
Defined.

Lemma split_numbers_chapters_witness :
  map snd (chapters two_breaks_done)
  = (map Some (seq 0 (seg two_breaks_done)) ++ [None])%list
  /\ map snd (cmds two_breaks_done) = seq 0 (seg two_breaks_done)
  /\ List.length (marks two_breaks_done) = seg two_breaks_done.
Proof.
  exact (split_numbers_chapters always_ok default_opts two_breaks
           two_breaks_done two_breaks_done_run).
Defined.

Lemma split_stops_at_failure_witness :
  map snd (chapters two_breaks_failed)
  = map Some (seq 0 (S (seg two_breaks_failed)))
  /\ map snd (cmds two_breaks_failed) = seq 0 (S (seg two_breaks_failed))
  /\ List.length (marks two_breaks_failed) = seg two_breaks_failed.
Proof.
  exact (split_stops_at_failure fails_second default_opts two_breaks _
           two_breaks_failed two_breaks_failed_run).
Defined.

Lemma split_markers_never_fall_witness :
  nondecreasing 0 (markers two_breaks_done).
Proof.
  apply (split_markers_never_fall always_ok default_opts two_breaks
           two_breaks_done ascending_two_breaks).
  - vm_compute. discriminate.
  - exact two_breaks_done_run.
Defined.

Lemma split_markers_are_kept_time_witness :
  exists t,
    split always_ok default_opts two_breaks init = Ok tt t
    /\ Forall2 Qeq (markers t) (0 :: kept_upto 0 (segments t)).
Proof.
  apply (split_markers_are_kept_time always_ok default_opts two_breaks).
  - intros c n. reflexivity.
  - exact ascending_two_breaks.
  - repeat constructor.
Defined.

(** ** Timestamps *)

Lemma int_is_floor (x : Q) : 0 <= x -> Py.int x = Qfloor x.
Proof.
  destruct x as [n d]. unfold Py.int, Qfloor, Qle. cbn. intros H.
  apply Z.quot_div_nonneg; lia.
Qed.

Lemma floor_is (x : Q) (n : Z) :
  inject_Z n <= x -> x < inject_Z n + 1 -> Qfloor x = n.
Proof.
  intros H1 H2. assert (Ha := Qfloor_le x). assert (Hb := Qlt_floor x).
  rewrite inject_Z_plus in Hb. change (inject_Z 1) with 1 in Hb.
  assert (Hlt : (Qfloor x < n + 1)%Z).
  { rewrite Zlt_Qlt, inject_Z_plus. change (inject_Z 1) with 1. lra. }
  assert (Hgt : (n < Qfloor x + 1)%Z).
  { rewrite Zlt_Qlt, inject_Z_plus. change (inject_Z 1) with 1. lra. }
  lia.
Qed.

Lemma int_is (x : Q) (n : Z) :
  (0 <= n)%Z -> inject_Z n <= x -> x < inject_Z n + 1 -> Py.int x = n.
Proof.
  intros Hn H1 H2. rewrite Zle_Qle in Hn. change (inject_Z 0) with 0 in Hn.
  rewrite int_is_floor by lra. apply floor_is; assumption.
Qed.

Lemma round_is (x : Q) (n : Z) :
  (0 <= n)%Z -> x == inject_Z n -> Py.round x = n.
Proof.
  intros Hn Hx. rewrite Zle_Qle in Hn. change (inject_Z 0) with 0 in Hn.
  unfold Py.round.
  assert (H0 : Qle_bool 0 x = true) by (apply Qle_bool_iff; lra).
  rewrite H0. apply floor_is; lra.
Qed.

(** A time of [h] hours, [m] minutes, [s] seconds and a fraction [r] of a
    second is taken apart into these by the divisions of the serializers. *)
Lemma hms_split (x r : Q) (h m s : Z) :
  (0 <= h)%Z -> (0 <= m < 60)%Z -> (0 <= s < 60)%Z -> 0 <= r -> r < 1 ->
  x == inject_Z h * 3600 + inject_Z m * 60 + inject_Z s + r ->
  Py.int (x / 3600) = h
  /\ Py.int ((x - inject_Z (h * 3600)) / 60) = m
  /\ Py.int (x - inject_Z (h * 3600) - inject_Z (m * 60)) = s
  /\ x - inject_Z (h * 3600) - inject_Z (m * 60) == inject_Z s + r.
Proof.
  intros Hh [Hm0 Hm] [Hs0 Hs] Hr0 Hr Hx.
  assert (Qh := Hh). assert (Qm0 := Hm0). assert (Qm := Hm).
  assert (Qs0 := Hs0). assert (Qs := Hs).
  rewrite Zle_Qle in Qh, Qm0, Qs0. rewrite Zlt_Qlt in Qm, Qs.
  change (inject_Z 0) with 0 in *. change (inject_Z 60) with 60 in *.
  assert (Qm' : inject_Z m <= 59).
  { change 59 with (inject_Z 59). rewrite <- Zle_Qle. lia. }
  assert (Qs' : inject_Z s <= 59).
  { change 59 with (inject_Z 59). rewrite <- Zle_Qle. lia. }
  assert (E1 : inject_Z (h * 3600) == inject_Z h * 3600).
  { rewrite inject_Z_mult. reflexivity. }
  assert (E2 : inject_Z (m * 60) == inject_Z m * 60).
  { rewrite inject_Z_mult. reflexivity. }
  repeat split.
  - apply int_is; [exact Hh | |].
    + apply Qle_shift_div_l; lra.
    + apply Qlt_shift_div_r; lra.
  - apply int_is; [exact Hm0 | |].
    + apply Qle_shift_div_l; lra.
    + apply Qlt_shift_div_r; lra.
  - apply int_is; [exact Hs0 | |]; lra.
  - lra.
Qed.

(** The comma form of a time that is a whole number of milliseconds. *)
Lemma comma_form_of_millis (x : Q) (h m s f : Z) :
  (0 <= h)%Z -> (0 <= m < 60)%Z -> (0 <= s < 60)%Z -> (0 <= f < 1000)%Z ->
  x == inject_Z h * 3600 + inject_Z m * 60 + inject_Z s + inject_Z f / 1000 ->
  _seconds_to_time_frac x true
  = (Py.fmt_d 2 h ++ ":" ++ Py.fmt_d 2 m ++ ":" ++ Py.fmt_d 2 s ++ ","
       ++ Py.fmt_d 3 f)%string.
Proof.
  intros Hh Hm Hs [Hf0 Hf] Hx.
  assert (Qf0 := Hf0). assert (Qf := Hf).
  rewrite Zle_Qle in Qf0. rewrite Zlt_Qlt in Qf.
  change (inject_Z 0) with 0 in Qf0. change (inject_Z 1000) with 1000 in Qf.
  assert (Hr0 : 0 <= inject_Z f / 1000) by (apply Qle_shift_div_l; lra).
  assert (Hr1 : inject_Z f / 1000 < 1) by (apply Qlt_shift_div_r; lra).
  destruct (hms_split x (inject_Z f / 1000) h m s Hh Hm Hs Hr0 Hr1 Hx)
    as (E1 & E2 & E3 & E4).
  unfold _seconds_to_time_frac. cbv zeta. rewrite E1, E2, E3.
  assert (Hs0 : inject_Z s <= inject_Z s + inject_Z f / 1000) by lra.
  assert (Efrac : Py.round
            (Py.mod1 (x - inject_Z (h * 3600) - inject_Z (m * 60)) * 1000) = f).
  { apply round_is; [exact Hf0 |]. unfold Py.mod1.
    rewrite (floor_is _ s) by lra. rewrite E4. field. }
  rewrite Efrac. reflexivity.
Qed.

(** X6. A time of [h] hours, [m] minutes (below 60), [s] seconds (below
    60) and [f] milliseconds (below 1000), in whatever way the number is
    written, is serialized in the comma form as [h], [m] and [s] on two
    digits and [f] on three: on whole milliseconds nothing is lost and the
    field of the milliseconds has three digits. *)
Theorem whole_millis_are_written (x : Q) (h m s f : Z) :
  (0 <= h)%Z -> (0 <= m < 60)%Z -> (0 <= s < 60)%Z -> (0 <= f < 1000)%Z ->
  x == inject_Z h * 3600 + inject_Z m * 60 + inject_Z s + inject_Z f / 1000 ->
  _seconds_to_time_frac x true
  = (Py.fmt_d 2 h ++ ":" ++ Py.fmt_d 2 m ++ ":" ++ Py.fmt_d 2 s ++ ","
       ++ Py.fmt_d 3 f)%string.
Proof.
  exact (comma_form_of_millis x h m s f).
Qed.

Lemma whole_millis_are_written_witness :
  _seconds_to_time_frac (3675140 # 1000) true
  = (Py.fmt_d 2 1 ++ ":" ++ Py.fmt_d 2 1 ++ ":" ++ Py.fmt_d 2 15 ++ ","
       ++ Py.fmt_d 3 140)%string.
Proof.
  apply (whole_millis_are_written (3675140 # 1000) 1 1 15 140);
    try lia; reflexivity.
Defined.

(** X7. [_seconds_to_time] drops the fraction of a second: a time of [h]
    hours, [m] minutes, [s] seconds and a fraction below one second is
    written [hh:mm:ss]. *)
Theorem seconds_to_time_drops_fraction (x r : Q) (h m s : Z) :
  (0 <= h)%Z -> (0 <= m < 60)%Z -> (0 <= s < 60)%Z -> 0 <= r -> r < 1 ->
  x == inject_Z h * 3600 + inject_Z m * 60 + inject_Z s + r ->
  _seconds_to_time x
  = (Py.fmt_d 2 h ++ ":" ++ Py.fmt_d 2 m ++ ":" ++ Py.fmt_d 2 s)%string.
Proof.
  intros Hh Hm Hs Hr0 Hr1 Hx.
  destruct (hms_split x r h m s Hh Hm Hs Hr0 Hr1 Hx) as (E1 & E2 & E3 & _).
  unfold _seconds_to_time. cbv zeta. rewrite E1, E2, E3. reflexivity.
Qed.

Lemma seconds_to_time_drops_fraction_witness :
  _seconds_to_time (367514 # 100)
  = (Py.fmt_d 2 1 ++ ":" ++ Py.fmt_d 2 1 ++ ":" ++ Py.fmt_d 2 15)%string.
Proof.
  apply (seconds_to_time_drops_fraction (367514 # 100) (14 # 100) 1 1 15);
    try lia; try reflexivity; vm_compute; (reflexivity || discriminate).
Defined.

(** *** Reading a timestamp and writing it back *)

Lemma no_digit (g : Decimal.uint) : Decimal.nb_digits g = 0%nat -> g = Decimal.Nil.
Proof. destruct g; cbn; intros H; (reflexivity || discriminate H). Qed.

(** Takes the first digit off a group of known length. *)
Ltac first_digit g H :=
  destruct g as [| g | g | g | g | g | g | g | g | g | g];
  cbn [Decimal.nb_digits] in H; [discriminate H | ..]; injection H as H.

Ltac by_digits :=
  vm_compute; repeat split; try reflexivity; intros Habs; discriminate Habs.

Lemma two_digits (g : Decimal.uint) :
  Decimal.nb_digits g = 2%nat ->
  (0 <= int_of g < 100)%Z
  /\ Py.fmt_d 2 (int_of g) = NilEmpty.string_of_uint g.
Proof.
  intros H. first_digit g H; first_digit g H;
    apply no_digit in H; subst g; by_digits.
Qed.

Lemma three_digits (g : Decimal.uint) :
  Decimal.nb_digits g = 3%nat ->
  (0 <= int_of g < 1000)%Z
  /\ Py.fmt_d 3 (int_of g) = NilEmpty.string_of_uint g.
Proof.
  intros H. first_digit g H; first_digit g H; first_digit g H;
    apply no_digit in H; subst g; by_digits.
Qed.

(** The time read from the four groups of a timestamp in the usual form
    is written back as the text of the groups. *)
Lemma usual_stamp_round_trip (h m s f : Decimal.uint) (x : Q) :
  usual_stamp h m s f ->
  x == inject_Z (int_of h * 3600 + int_of m * 60) + inject_Z (int_of s)
       + frac_of f ->
  _seconds_to_time_frac x true = stamp_text h m s f.
Proof.
  intros (Nh & Nm & Ns & Nf & Hm & Hs) Hx.
  destruct (two_digits h Nh) as [[Hh0 _] Th].
  destruct (two_digits m Nm) as [[Hm0 _] Tm].
  destruct (two_digits s Ns) as [[Hs0 _] Ts].
  destruct (three_digits f Nf) as [Hf Tf].
  unfold stamp_text. rewrite <- Th, <- Tm, <- Ts, <- Tf.
  apply comma_form_of_millis; try lia.
  rewrite Hx. unfold frac_of. rewrite Nf.
  change (inject_Z (Py.pow10 3)) with 1000.
  rewrite inject_Z_plus, !inject_Z_mult. reflexivity.
Qed.

(** X8. A pair of timestamps in the usual form of SRT files (two digits
    for hours, minutes and seconds, three for the milliseconds, minutes
    and seconds below 60) is read by [_convert_timestamp] into times that
    [_seconds_to_time_frac] writes back, in the comma form, as the very
    text of the timestamps. *)
Theorem timestamps_round_trip (m : ts_match) :
  usual_match m ->
  _seconds_to_time_frac (fst (_convert_timestamp m)) true
  = stamp_text (group1 m) (group2 m) (group3 m) (group4 m)
  /\ _seconds_to_time_frac (snd (_convert_timestamp m)) true
     = stamp_text (group5 m) (group6 m) (group7 m) (group8 m).
Proof.
  intros [H1 H2].
  split; apply usual_stamp_round_trip; try assumption; reflexivity.
Qed.

Lemma timestamps_round_trip_witness :
  _seconds_to_time_frac (fst (_convert_timestamp match_10_12)) true
  = stamp_text (group1 match_10_12) (group2 match_10_12)
               (group3 match_10_12) (group4 match_10_12)
  /\ _seconds_to_time_frac (snd (_convert_timestamp match_10_12)) true
     = stamp_text (group5 match_10_12) (group6 match_10_12)
                  (group7 match_10_12) (group8 match_10_12).
Proof.
  apply (timestamps_round_trip match_10_12).
  repeat split; vm_compute; reflexivity.
Defined.

(** ** More on caption resynchronization *)

Section Pass.

Import Subtitles.

Variable marks : list Q.

Lemma adjust_times_proper (dc : Q * nat) (c : Q * Q) :
  fst c < snd c ->
  fst (snd (adjust_times marks dc c)) < snd (snd (adjust_times marks dc c)).
Proof.
  destruct dc as [delay curr], c as [s e]. cbn [fst snd]. intros Hse.
  unfold adjust_times.
  destruct (curr <? List.length marks)%nat; cbn [andb].
  - destruct (Py.ltb (nth curr marks 0) (e + delay)) eqn:E1.
    + destruct (Py.gtb (nth curr marks 0) (s + delay)) eqn:E2;
        order_facts; cbn [fst snd]; lra.
    + cbn [fst snd]. lra.
  - cbn [fst snd]. lra.
Qed.

Lemma adjust_captions_proper (caps : list (Q * Q)) :
  forall dc,
    Forall (fun c => fst c < snd c) caps ->
    Forall (fun c => fst c < snd c) (adjust_captions marks dc caps).
Proof.
  induction caps as [| c caps IH]; intros dc H; cbn [adjust_captions].
  - constructor.
  - inversion H as [| c0 l Hc Hrest]. subst.
    assert (Hp := adjust_times_proper dc c Hc).
    destruct (adjust_times marks dc c) as [dc' c'].
    constructor; [exact Hp | apply IH; exact Hrest].
Qed.

(** X9. A pass of [adjust] over captions that all start before they end
    leaves every caption starting before it ends: clipping at a cutpoint
    never empties or reverses a caption. *)
Theorem adjust_keeps_captions_proper (caps : list (Q * Q)) :
  Forall (fun c => fst c < snd c) caps ->
  Forall (fun c => fst c < snd c) (adjust_captions marks (0, 0%nat) caps).
Proof.
  apply adjust_captions_proper.
Qed.

Lemma adjust_times_curr (dc : Q * nat) (c : Q * Q) :
  (snd dc <= List.length marks)%nat ->
  (snd dc <= snd (fst (adjust_times marks dc c)) <= S (snd dc))%nat
  /\ (snd (fst (adjust_times marks dc c)) <= List.length marks)%nat.
Proof.
  destruct dc as [delay curr], c as [s e]. cbn [fst snd]. intros Hc.
  unfold adjust_times.
  destruct (curr <? List.length marks)%nat eqn:E; cbn [andb].
  - apply Nat.ltb_lt in E.
    destruct (Py.ltb (nth curr marks 0) (e + delay)).
    + destruct (Py.gtb (nth curr marks 0) (s + delay)); cbn [fst snd]; lia.
    + cbn [fst snd]. lia.
  - cbn [fst snd]. lia.
Qed.

Lemma adjust_state_curr (caps : list (Q * Q)) :
  forall dc,
    (snd dc <= List.length marks)%nat ->
    (snd (adjust_state marks dc caps) <= List.length marks)%nat
    /\ (snd (adjust_state marks dc caps) <= snd dc + List.length caps)%nat.
Proof.
  induction caps as [| c caps IH]; intros dc Hc; cbn [adjust_state List.length].
  - lia.
  - destruct (adjust_times_curr dc c Hc) as [H1 H2].
    destruct (IH _ H2) as [I1 I2]. lia.
Qed.

(** X10. In a pass of [adjust] the index [curr] of the next cutpoint is
    never beyond the number of cutpoints, and at most one cutpoint is
    consumed for each caption: after the captions [caps], [curr] is at
    most [len(marks)] and at most the number of captions. *)
Theorem adjust_consumes_one_mark_at_most (caps : list (Q * Q)) :
  (snd (adjust_state marks (0%Q, 0%nat) caps) <= List.length marks)%nat
  /\ (snd (adjust_state marks (0%Q, 0%nat) caps) <= List.length caps)%nat.
Proof.
  destruct (adjust_state_curr caps (0%Q, 0%nat)) as [H1 H2]; cbn [snd] in *; lia.
Qed.

End Pass.

(** Captions that all end at or before the next cutpoint are not moved:
    the delay, which is 0, is added to their times, and no cutpoint is
    consumed. *)
Lemma adjust_before_first_mark (m0 : Q) (ms : list Q) (caps : list (Q * Q)) :
  Forall (fun c => snd c <= m0) caps ->
  Subtitles.adjust_captions (m0 :: ms) (0, 0%nat) caps
  = map (fun c => (fst c + 0, snd c + 0)) caps
  /\ adjust_state (m0 :: ms) (0, 0%nat) caps = (0, 0%nat).
Proof.
  induction 1 as [| [s e] caps Hc _ IH].
  - split; reflexivity.
  - cbn [fst snd] in Hc.
    assert (Hstep : Subtitles.adjust_times (m0 :: ms) (0, 0%nat) (s, e)
                    = ((0, 0%nat), (s + 0, e + 0))).
    { unfold Subtitles.adjust_times. cbn [List.length Nat.ltb Nat.leb nth andb].
      assert (E : Py.ltb m0 (e + 0) = false) by (apply ltb_ge; lra).
      rewrite E. reflexivity. }
    destruct IH as [IH1 IH2].
    cbn [Subtitles.adjust_captions adjust_state map fst snd].
    rewrite Hstep. cbn [fst]. rewrite IH1, IH2. split; reflexivity.
Qed.

(** X11. When every caption ends at or before the first cutpoint, a pass
    of [adjust] moves no caption (it adds the delay 0 to each time),
    consumes no cutpoint and ends with a delay of 0. *)
Theorem adjust_leaves_early_captions (m0 : Q) (ms : list Q)
    (caps : list (Q * Q)) :
  Forall (fun c => snd c <= m0) caps ->
  Subtitles.adjust_captions (m0 :: ms) (0, 0%nat) caps
  = map (fun c => (fst c + 0, snd c + 0)) caps
  /\ adjust_state (m0 :: ms) (0, 0%nat) caps = (0, 0%nat).
Proof.
  apply adjust_before_first_mark.
Qed.

Lemma render_unmoved (srt : list Subtitles.line) :
  usual_file srt ->
  render srt (map (fun c => (fst c + 0, snd c + 0)) (captions srt))
  = map rewritten srt.
Proof.
  induction 1 as [| l srt Hl _ IH]; [reflexivity |].
  unfold captions. cbn [flat_map]. fold (captions srt).
  cbn [render map]. unfold rewritten at 1.
  destruct (Subtitles.search l) as [m |] eqn:Em.
  - cbn [app map]. rewrite IH. f_equal.
    destruct Hl as [H1 H2]. unfold timestamp_line. cbn [fst snd].
    rewrite (usual_stamp_round_trip _ _ _ _ _ H1)
      by (unfold _convert_timestamp; cbn [fst]; ring).
    rewrite (usual_stamp_round_trip _ _ _ _ _ H2)
      by (unfold _convert_timestamp; cbn [snd]; ring).
    reflexivity.
  - cbn [app]. rewrite IH. reflexivity.
Qed.

(** X12. On an SRT file whose timestamps are in the usual form and whose
    captions all end at or before the first cutpoint, [adjust] writes
    every timestamp line back with its two timestamps unchanged (and one
    [" --> "] between them) and every other line as it was. *)
Theorem adjust_rewrites_file_unchanged (m0 : Q) (ms : list Q)
    (srt : list Subtitles.line) :
  usual_file srt ->
  Forall (fun c => snd c <= m0) (captions srt) ->
  Subtitles.adjust (m0 :: ms) srt = map rewritten srt.
Proof.
  intros Husual Hearly.
  rewrite adjust_renders by discriminate.
  rewrite (proj1 (adjust_before_first_mark m0 ms (captions srt) Hearly)).
  apply render_unmoved. exact Husual.
Qed.

Lemma adjust_keeps_captions_proper_witness :
  Forall (fun c => fst c < snd c)
         (Subtitles.adjust_captions [11] (0, 0%nat) [(10, 12); (20, 21)]).
Proof.
  apply (adjust_keeps_captions_proper [11] [(10, 12); (20, 21)]).
  repeat constructor.
Defined.

Lemma adjust_leaves_early_captions_witness :
  Subtitles.adjust_captions [100; 200] (0, 0%nat) [(10, 12); (20, 21)]
  = map (fun c => (fst c + 0, snd c + 0)) [(10, 12); (20, 21)]
  /\ adjust_state [100; 200] (0, 0%nat) [(10, 12); (20, 21)] = (0, 0%nat).
Proof.
  apply (adjust_leaves_early_captions 100 [200] [(10, 12); (20, 21)]).
  repeat constructor; vm_compute; discriminate.
Defined.

Lemma adjust_rewrites_file_unchanged_witness :
  Subtitles.adjust [100] [caption_10_12; Subtitles.Line "Hello" None]
  = map rewritten [caption_10_12; Subtitles.Line "Hello" None].
Proof.
  apply (adjust_rewrites_file_unchanged 100 []).
  - repeat constructor; vm_compute; reflexivity.
  - repeat constructor; vm_compute; discriminate.
Defined.

(** ** More on stream selection *)

Section Selection.

Variable o : opts.

(** The loop over the report keeps the streams in the order of the
    report, whatever their flags. *)
Lemma probe_loop_pids (report : list probe_line) :
  forall vs aus vs' aus',
    for_each report (probe o) (vs, aus) tt = Ok (vs', aus') tt ->
    map fst vs' = (map fst vs ++ video_pids report)%list
    /\ map fst aus' = (map fst aus ++ audio_pids report)%list.
Proof.
  induction report as [| l report IH]; intros vs aus vs' aus' Hrun.
  - inversion Hrun. cbn. rewrite !app_nil_r. split; reflexivity.
  - cbn [for_each] in Hrun. unfold bind at 1 in Hrun.
    destruct (probe o (vs, aus) l tt) as [[vs1 aus1] [] | e []] eqn:E;
      [| discriminate].
    destruct (IH _ _ _ _ Hrun) as [Hv Ha]. rewrite Hv, Ha.
    unfold video_pids, audio_pids. cbn [flat_map].
    unfold probe in E.
    assert (Hvs : map fst vs1
                  = (map fst vs
                     ++ match video_pid l with Some p => [p] | None => [] end)%list
                  /\ map fst aus1
                     = (map fst aus
                        ++ match audio_pid l with Some p => [p] | None => [] end)%list).
    { destruct (audio_pid l) as [pid |].
      - destruct (audio_lang l) as [tag |].
        + unfold _iso_639_2, bind, ret, raise in E.
          destruct (lookup (language o) languages); [| discriminate].
          inversion E. subst. rewrite map_app.
          destruct (video_pid l); [rewrite map_app |]; cbn;
            rewrite ?app_nil_r; split; reflexivity.
        + unfold bind, ret in E. inversion E. subst. rewrite map_app.
          destruct (video_pid l); [rewrite map_app |]; cbn;
            rewrite ?app_nil_r; split; reflexivity.
      - unfold bind, ret in E. inversion E. subst.
        destruct (video_pid l); [rewrite map_app |]; cbn;
          rewrite ?app_nil_r; split; reflexivity. }
    destruct Hvs as [Hv1 Ha1]. rewrite Hv1, Ha1, <- !app_assoc.
    split; reflexivity.
Qed.

Lemma enable_first_pids (l : list stream) : map fst (enable_first l) = map fst l.
Proof. destruct l as [| [pid b] l]; reflexivity. Qed.

Lemma enable_first_enables (l : list stream) :
  l <> [] -> (0 < enabled_count (enable_first l))%nat.
Proof.
  destruct l as [| [pid b] l]; [congruence |]. intros _.
  unfold enabled_count. cbn. lia.
Qed.

(** X13. Whenever [_find_streams] returns, the streams of each kind are
    those of the report in the same order, and at least one video stream
    and one audio stream are enabled. *)
Theorem find_streams_enables_one (report : list probe_line)
    (vs aus : list stream) :
  _find_streams o report tt = Ok (vs, aus) tt ->
  map fst vs = video_pids report
  /\ map fst aus = audio_pids report
  /\ (0 < enabled_count vs)%nat
  /\ (0 < enabled_count aus)%nat.
Proof.
  unfold _find_streams. intros Hrun. unfold bind at 1 in Hrun.
  destruct (for_each report (probe o) ([], []) tt)
    as [[vs0 aus0] [] | e []] eqn:Eloop; [| discriminate].
  destruct (probe_loop_pids _ _ _ _ _ Eloop) as [Hv Ha]. cbn [map app] in Hv, Ha.
  unfold bind, ret, raise in Hrun.
  destruct vs0 as [| v vs0]; [discriminate |].
  destruct aus0 as [| a aus0]; [discriminate |].
  cbn [List.length Nat.eqb] in Hrun.
  assert (Hvs : vs = if (enabled_count (v :: vs0) =? 0)%nat
                     then enable_first (v :: vs0) else v :: vs0)
    by (inversion Hrun; reflexivity).
  assert (Haus : aus = if (enabled_count (a :: aus0) =? 0)%nat
                       then enable_first (a :: aus0) else a :: aus0)
    by (inversion Hrun; reflexivity).
  clear Hrun. rewrite Hvs, Haus. repeat split.
  - destruct (enabled_count (v :: vs0) =? 0)%nat;
      rewrite ?enable_first_pids; exact Hv.
  - destruct (enabled_count (a :: aus0) =? 0)%nat;
      rewrite ?enable_first_pids; exact Ha.
  - destruct (enabled_count (v :: vs0) =? 0)%nat eqn:E.
    + apply enable_first_enables. discriminate.
    + apply Nat.eqb_neq in E. lia.
  - destruct (enabled_count (a :: aus0) =? 0)%nat eqn:E.
    + apply enable_first_enables. discriminate.
    + apply Nat.eqb_neq in E. lia.
Qed.

(** With a language that is not in the table, the loop raises at the
    first audio stream that carries a language tag. *)
Lemma probe_loop_unknown_language (report : list probe_line) :
  lookup (language o) languages = None ->
  (exists l pid tag,
      In l report /\ audio_pid l = Some pid /\ audio_lang l = Some tag) ->
  forall acc,
    for_each report (probe o) acc tt
    = Raise (ValueError ("Invalid language code " ++ language o ++ ".")) tt.
Proof.
  intros Hlang. induction report as [| l0 report IH]; intros Hex acc.
  - destruct Hex as (l & pid & tag & [] & _).
  - destruct acc as [vs aus]. cbn [for_each]. unfold bind at 1.
    unfold probe at 1.
    destruct (audio_pid l0) as [pid0 |] eqn:Ea.
    + destruct (audio_lang l0) as [tag0 |] eqn:El.
      * unfold _iso_639_2, bind, raise. rewrite Hlang. reflexivity.
      * unfold bind at 1 2. unfold ret at 1 2 3. apply IH.
        destruct Hex as (l & pid & tag & [<- | Hin] & Hp & Ht);
          [congruence |]. exists l, pid, tag. tauto.
    + unfold bind at 1. unfold ret at 1 2. apply IH.
      destruct Hex as (l & pid & tag & [<- | Hin] & Hp & Ht);
        [congruence |]. exists l, pid, tag. tauto.
Qed.

(** X14. When the requested language is not one of the two-letter codes
    of the table and some audio stream of the report carries a language
    tag, [_find_streams] raises the [ValueError] of [_iso_639_2], whatever
    streams exist. *)
Theorem find_streams_unknown_language (report : list probe_line) :
  lookup (language o) languages = None ->
  (exists l pid tag,
      In l report /\ audio_pid l = Some pid /\ audio_lang l = Some tag) ->
  _find_streams o report tt
  = Raise (ValueError ("Invalid language code " ++ language o ++ ".")) tt.
Proof.
  intros Hlang Hex. unfold _find_streams. unfold bind at 1.
  rewrite (probe_loop_unknown_language report Hlang Hex). reflexivity.
Qed.

(** With a language of the table, the loop records every stream with the
    flag the report gives it. *)
Lemma probe_loop_flags (code : string) (report : list probe_line) :
  lookup (language o) languages = Some code ->
  forall vs aus,
    for_each report (probe o) (vs, aus) tt
    = Ok ((vs ++ probed_video report)%list,
          (aus ++ probed_audio code report)%list) tt.
Proof.
  intros Hcode. induction report as [| l report IH]; intros vs aus.
  - cbn. rewrite !app_nil_r. reflexivity.
  - cbn [for_each]. unfold bind at 1. unfold probe at 1.
    unfold probed_video, probed_audio. cbn [flat_map].
    fold (probed_video report). fold (probed_audio code report).
    destruct (audio_pid l) as [pid |].
    + destruct (audio_lang l) as [tag |].
      * unfold _iso_639_2, bind, ret. rewrite Hcode. rewrite IH.
        destruct (video_pid l); cbn [app]; rewrite <- ?app_assoc; reflexivity.
      * unfold bind, ret. rewrite IH.
        destruct (video_pid l); cbn [app]; rewrite <- ?app_assoc; reflexivity.
    + unfold bind, ret. rewrite IH.
      destruct (video_pid l); cbn [app]; rewrite <- ?app_assoc; reflexivity.
Qed.

Lemma enabled_count_in (l : list stream) (pid : Z) :
  In (pid, true) l -> (enabled_count l =? 0)%nat = false.
Proof.
  intros Hin. apply Nat.eqb_neq. unfold enabled_count.
  rewrite length_map. intros H. apply length_zero_iff_nil in H.
  assert (Hf : In (pid, true) (filter snd l)) by (apply filter_In; tauto).
  rewrite H in Hf. exact Hf.
Qed.

(** X15. With a language of the table, when the report tags a video
    stream as [Main] and an audio stream with the three-letter code of the
    language, [_find_streams] returns every stream with the flag the
    report gives it: the streams that match are enabled, the others are
    not, and the first stream is not forced. *)
Theorem find_streams_keeps_matches (report : list probe_line)
    (code : string) (vpid apid : Z) :
  lookup (language o) languages = Some code ->
  In (vpid, true) (probed_video report) ->
  In (apid, true) (probed_audio code report) ->
  _find_streams o report tt
  = Ok (probed_video report, probed_audio code report) tt.
Proof.
  intros Hcode Hv Ha. unfold _find_streams. unfold bind at 1.
  rewrite (probe_loop_flags code report Hcode). cbn [app].
  unfold bind, ret, raise.
  destruct (probed_video report) as [| v vs] eqn:Ev; [destruct Hv |].
  destruct (probed_audio code report) as [| a aus] eqn:Eaud; [destruct Ha |].
  cbn [List.length Nat.eqb].
  rewrite (enabled_count_in _ _ Hv), (enabled_count_in _ _ Ha). reflexivity.
Qed.

End Selection.

Lemma find_streams_enables_one_witness :
  map fst [(17%Z, true)] = video_pids french_report
  /\ map fst [(20%Z, true); (21%Z, false)] = audio_pids french_report
  /\ (0 < enabled_count [(17%Z, true)])%nat
  /\ (0 < enabled_count [(20%Z, true); (21%Z, false)])%nat.
Proof.
  apply (find_streams_enables_one default_opts french_report). reflexivity.
Defined.

Lemma find_streams_unknown_language_witness :
  _find_streams (Opts 5 "xx") french_report tt
  = Raise (ValueError ("Invalid language code " ++ language (Opts 5 "xx") ++ ".")) tt.
Proof.
  apply (find_streams_unknown_language (Opts 5 "xx") french_report).
  - reflexivity.
  - exists (ProbeLine None false (Some 20%Z) (Some "fra"%string)), 20%Z, "fra"%string.
    cbn. tauto.
Defined.

Lemma find_streams_keeps_matches_witness :
  _find_streams default_opts english_report tt
  = Ok (probed_video english_report, probed_audio "eng" english_report) tt.
Proof.
  apply (find_streams_keeps_matches default_opts english_report "eng" 18%Z 21%Z).
  - reflexivity.
  - cbn. tauto.
  - cbn. tauto.
Defined.

(** ** The log of the demultiplexer *)

Lemma retarget_enabled (streams : list stream) (pid : Z) (found : nat) :
  forall targ,
    retarget streams pid found targ
    = if enabled_pid streams pid then found else targ.
Proof.
  unfold retarget, enabled_pid.
  induction streams as [| s streams IH]; intros targ; [reflexivity |].
  cbn [fold_left existsb]. rewrite IH.
  destruct ((fst s =? pid)%Z && snd s)%bool; cbn [orb];
    match goal with
    | |- context [existsb ?f streams] => destruct (existsb f streams)
    end; reflexivity.
Qed.

Section Scan.

Variables vstreams astreams : list stream.

(** Over lines that announce no file, only the counters of the streams
    found and the targets move. *)
Lemma scan_announcements (anns : list log_line) :
  Forall no_file anns ->
  forall c d,
    fold_left (scan vstreams astreams) anns (c, d)
    = ({| curr_v := curr_v c; curr_a := curr_a c;
          found_v := found_v c + List.length (announced_video anns);
          found_a := found_a c + List.length (announced_audio anns);
          targ_v := targ_after vstreams (announced_video anns)
                               (found_v c) (targ_v c);
          targ_a := targ_after astreams (announced_audio anns)
                               (found_a c) (targ_a c) |}, d).
Proof.
  induction 1 as [| l anns [Hv Ha] _ IH]; intros c d.
  - destruct c. cbn. rewrite !Nat.add_0_r. reflexivity.
  - cbn [fold_left]. unfold scan at 2. rewrite Hv, Ha.
    unfold heard_video, heard_audio.
    unfold announced_video, announced_audio. cbn [flat_map].
    fold (announced_video anns). fold (announced_audio anns).
    destruct c as [cv ca fv fa tv ta].
    destruct (log_video_pid l) as [pv |], (log_audio_pid l) as [pa |];
      rewrite IH; cbn [curr_v curr_a found_v found_a targ_v targ_a app
                       List.length targ_after];
      rewrite ?retarget_enabled; f_equal; f_equal; lia.
Qed.

(** Once the ordinal of the files is past the target, no file is taken. *)
Lemma scan_files_past_v (outs : list log_line) :
  Forall no_pid outs ->
  forall c d,
    (targ_v c < curr_v c)%nat ->
    _demux_v (snd (fold_left (scan vstreams astreams) outs (c, d))) = _demux_v d.
Proof.
  induction 1 as [| l outs [Hv Ha] _ IH]; intros c d Hlt; [reflexivity |].
  cbn [fold_left]. unfold scan at 2, heard_video, heard_audio.
  rewrite Hv, Ha.
  destruct (log_video_file l).
  - rewrite IH by (cbn; lia).
    destruct (log_file l); [| reflexivity]. cbn [_demux_v].
    assert (E : (curr_v c =? targ_v c)%nat = false) by (apply Nat.eqb_neq; lia).
    rewrite E. reflexivity.
  - destruct (log_audio_file l).
    + rewrite IH by (cbn; exact Hlt). destruct (log_file l); reflexivity.
    + apply IH. exact Hlt.
Qed.

Lemma scan_files_past_a (outs : list log_line) :
  Forall no_pid outs ->
  forall c d,
    (targ_a c < curr_a c)%nat ->
    _demux_a (snd (fold_left (scan vstreams astreams) outs (c, d))) = _demux_a d.
Proof.
  induction 1 as [| l outs [Hv Ha] _ IH]; intros c d Hlt; [reflexivity |].
  cbn [fold_left]. unfold scan at 2, heard_video, heard_audio.
  rewrite Hv, Ha.
  destruct (log_video_file l).
  - rewrite IH by (cbn; exact Hlt). destruct (log_file l); reflexivity.
  - destruct (log_audio_file l).
    + rewrite IH by (cbn; lia).
      destruct (log_file l); [| reflexivity]. cbn [_demux_a].
      assert (E : (curr_a c =? targ_a c)%nat = false) by (apply Nat.eqb_neq; lia).
      rewrite E. reflexivity.
    + apply IH. exact Hlt.
Qed.

(** Over lines that announce no stream, the file taken for the video is
    the one at the target ordinal among the video files. *)
Lemma scan_files_v (f : string) (outs : list log_line) :
  Forall no_pid outs ->
  forall c d,
    (curr_v c <= targ_v c)%nat ->
    nth_error (video_files outs) (targ_v c - curr_v c) = Some (Some f) ->
    _demux_v (snd (fold_left (scan vstreams astreams) outs (c, d))) = Some f.
Proof.
  induction 1 as [| l outs [Hv Ha] Houts IH]; intros c d Hle Hnth.
  - destruct (targ_v c - curr_v c)%nat; discriminate Hnth.
  - cbn [fold_left]. unfold scan at 2, heard_video, heard_audio.
    rewrite Hv, Ha.
    unfold video_files in Hnth. cbn [flat_map] in Hnth.
    fold (video_files outs) in Hnth.
    destruct (log_video_file l).
    + cbn [app] in Hnth.
      destruct (Nat.eq_dec (curr_v c) (targ_v c)) as [E | E].
      * rewrite E, Nat.sub_diag in Hnth. cbn in Hnth.
        inversion Hnth as [Hf]. rewrite scan_files_past_v by (trivial; cbn; lia).
        rewrite Hf. cbn [_demux_v]. rewrite ?E, ?Nat.eqb_refl. reflexivity.
      * apply IH; [cbn; lia |]. cbn [targ_v curr_v].
        replace (targ_v c - curr_v c)%nat with (S (targ_v c - S (curr_v c)))
          in Hnth by lia.
        exact Hnth.
    + cbn [app] in Hnth. destruct (log_audio_file l); apply IH; assumption.
Qed.

Lemma scan_files_a (f : string) (outs : list log_line) :
  Forall no_pid outs ->
  forall c d,
    (curr_a c <= targ_a c)%nat ->
    nth_error (audio_files outs) (targ_a c - curr_a c) = Some (Some f) ->
    _demux_a (snd (fold_left (scan vstreams astreams) outs (c, d))) = Some f.
Proof.
  induction 1 as [| l outs [Hv Ha] Houts IH]; intros c d Hle Hnth.
  - destruct (targ_a c - curr_a c)%nat; discriminate Hnth.
  - cbn [fold_left]. unfold scan at 2, heard_video, heard_audio.
    rewrite Hv, Ha.
    unfold audio_files in Hnth. cbn [flat_map] in Hnth.
    fold (audio_files outs) in Hnth.
    destruct (log_video_file l).
    + cbn [app] in Hnth. apply IH; assumption.
    + destruct (log_audio_file l).
      * cbn [app] in Hnth.
        destruct (Nat.eq_dec (curr_a c) (targ_a c)) as [E | E].
        -- rewrite E, Nat.sub_diag in Hnth. cbn in Hnth.
           inversion Hnth as [Hf]. rewrite scan_files_past_a by (trivial; cbn; lia).
           rewrite Hf. cbn [_demux_a]. rewrite ?E, ?Nat.eqb_refl. reflexivity.
        -- apply IH; [cbn; lia |]. cbn [targ_a curr_a].
           replace (targ_a c - curr_a c)%nat with (S (targ_a c - S (curr_a c)))
             in Hnth by lia.
           exact Hnth.
      * cbn [app] in Hnth. apply IH; assumption.
Qed.

(** The target after announcements of which [p] is the last enabled one. *)
Lemma targ_after_last (streams : list stream) (p : Z) (after : list Z)
    (before : list Z) :
  enabled_pid streams p = true ->
  Forall (fun q => enabled_pid streams q = false) after ->
  forall found targ,
    targ_after streams (before ++ p :: after) found targ
    = (found + List.length before + 1)%nat.
Proof.
  intros Hp Hafter.
  assert (Hrest : forall found targ, targ_after streams after found targ = targ).
  { induction Hafter as [| q after Hq _ IH]; intros found targ; [reflexivity |].
    cbn [targ_after]. rewrite Hq. apply IH. }
  induction before as [| b before IH]; intros found targ.
  - cbn [app targ_after List.length]. rewrite Hp, Hrest. lia.
  - cbn [app targ_after List.length]. rewrite IH. lia.
Qed.

Lemma targ_after_none (streams : list stream) (pids : list Z) :
  Forall (fun q => enabled_pid streams q = false) pids ->
  forall found targ, targ_after streams pids found targ = targ.
Proof.
  induction 1 as [| q pids Hq _ IH]; intros found targ; [reflexivity |].
  cbn [targ_after]. rewrite Hq. apply IH.
Qed.

End Scan.

Lemma heard_audio_video (astreams : list stream) (l : log_line) (c : counters) :
  curr_v (heard_audio astreams l c) = curr_v c
  /\ targ_v (heard_audio astreams l c) = targ_v c.
Proof.
  unfold heard_audio. destruct (log_audio_pid l); split; reflexivity.
Qed.

Lemma heard_video_not_enabled (vstreams : list stream) (l : log_line)
    (c : counters) :
  Forall (fun q => enabled_pid vstreams q = false) (announced_video [l]) ->
  curr_v (heard_video vstreams l c) = curr_v c
  /\ targ_v (heard_video vstreams l c) = targ_v c.
Proof.
  unfold announced_video, heard_video. cbn [flat_map]. intros Hno.
  destruct (log_video_pid l) as [pv |]; [| split; reflexivity].
  inversion Hno as [| q qs Hq _]. subst.
  cbn [curr_v targ_v]. rewrite retarget_enabled, Hq. split; reflexivity.
Qed.

(** With no announcement of an enabled video stream, no file is ever
    taken for the video, wherever the lines of the log stand. *)
Lemma scan_without_target (vstreams astreams : list stream)
    (log : list log_line) :
  Forall (fun q => enabled_pid vstreams q = false) (announced_video log) ->
  forall c d,
    (targ_v c < curr_v c)%nat ->
    _demux_v (snd (fold_left (scan vstreams astreams) log (c, d))) = _demux_v d.
Proof.
  induction log as [| l log IH]; intros Hno c d Hlt; [reflexivity |].
  change (l :: log) with ([l] ++ log)%list in Hno.
  unfold announced_video in Hno. rewrite flat_map_app in Hno.
  apply Forall_app in Hno. destruct Hno as [Hl Hrest].
  destruct (heard_video_not_enabled vstreams l c Hl) as [Hc1 Ht1].
  destruct (heard_audio_video astreams l (heard_video vstreams l c))
    as [Hc2 Ht2].
  cbn [fold_left]. unfold scan at 2.
  set (c1 := heard_audio astreams l (heard_video vstreams l c)) in *.
  assert (Hlt1 : (targ_v c1 < curr_v c1)%nat) by lia.
  destruct (log_video_file l).
  - rewrite (IH Hrest) by (cbn; lia).
    destruct (log_file l); [| reflexivity]. cbn [_demux_v].
    assert (E : (curr_v c1 =? targ_v c1)%nat = false) by (apply Nat.eqb_neq; lia).
    rewrite E. reflexivity.
  - destruct (log_audio_file l).
    + rewrite (IH Hrest) by (cbn; lia). destruct (log_file l); reflexivity.
    + apply (IH Hrest). exact Hlt1.
Qed.

Section DemuxResults.

Variable o : opts.
Variable report : list probe_line.
Variable log : list log_line.
Variable exists_ : string -> bool.

(** X16. When Project-X returns 0 and [_find_streams] returns, but no
    video stream announced in the log is an enabled video stream, no file
    is taken for the video, wherever the lines of the log stand, and
    [demux] raises [Could not locate demuxed video stream.] *)
Theorem demux_without_enabled_announcement (vs aus : list stream) :
  _find_streams o report tt = Ok (vs, aus) tt ->
  Forall (fun q => enabled_pid vs q = false) (announced_video log) ->
  exists d,
    demux o report log 0 exists_ demux_init
    = Raise (RuntimeError "Could not locate demuxed video stream.") d
    /\ _demux_v d = None.
Proof.
  intros Hfs Hno.
  assert (Hv : _demux_v (scan_log vs aus log demux_init) = None).
  { unfold scan_log. rewrite scan_without_target; [reflexivity | exact Hno |].
    cbn. lia. }
  exists (scan_log vs aus log demux_init). split; [| exact Hv].
  unfold demux, bind, _cmd, ret, _find_demux, gets. cbn [Z.eqb negb andb].
  rewrite Hfs, Hv. reflexivity.
Qed.

(** X17. In a log where the streams are all announced before the files
    are listed, the file taken for each kind is the one at the same
    ordinal among the files of that kind as the last announcement of an
    enabled stream among the announcements of that kind; when Project-X
    returns 0, [_find_streams] returns and both files exist, [demux]
    returns with these two files. *)
Theorem demux_takes_files_by_ordinal (vs aus : list stream)
    (anns outs : list log_line) (vb va ab aa : list Z) (pv pa : Z)
    (fv fa : string) :
  _find_streams o report tt = Ok (vs, aus) tt ->
  log = (anns ++ outs)%list ->
  Forall no_file anns ->
  Forall no_pid outs ->
  announced_video anns = (vb ++ pv :: va)%list ->
  enabled_pid vs pv = true ->
  Forall (fun q => enabled_pid vs q = false) va ->
  announced_audio anns = (ab ++ pa :: aa)%list ->
  enabled_pid aus pa = true ->
  Forall (fun q => enabled_pid aus q = false) aa ->
  nth_error (video_files outs) (List.length vb) = Some (Some fv) ->
  nth_error (audio_files outs) (List.length ab) = Some (Some fa) ->
  exists_ fv = true ->
  exists_ fa = true ->
  exists d,
    demux o report log 0 exists_ demux_init = Ok tt d
    /\ _demux_v d = Some fv
    /\ _demux_a d = Some fa.
Proof.
  intros Hfs Hlog Hanns Houts Hvid Hpv Hva Haud Hpa Haa Hfv Hfa Hev Hea.
  assert (Hscan : _demux_v (scan_log vs aus log demux_init) = Some fv
                  /\ _demux_a (scan_log vs aus log demux_init) = Some fa).
  { unfold scan_log. rewrite Hlog, fold_left_app.
    rewrite (scan_announcements vs aus anns Hanns).
    cbn [curr_v curr_a found_v found_a targ_v targ_a].
    rewrite Hvid, Haud.
    rewrite (targ_after_last vs pv va vb Hpv Hva).
    rewrite (targ_after_last aus pa aa ab Hpa Haa).
    split.
    - apply scan_files_v; [exact Houts | cbn; lia |].
      cbn [targ_v curr_v].
      replace (0 + List.length vb + 1 - 1)%nat with (List.length vb) by lia.
      exact Hfv.
    - apply scan_files_a; [exact Houts | cbn; lia |].
      cbn [targ_a curr_a].
      replace (0 + List.length ab + 1 - 1)%nat with (List.length ab) by lia.
      exact Hfa. }
  destruct Hscan as [Hv Ha].
  exists (scan_log vs aus log demux_init). split; [| split; assumption].
  unfold demux, bind, _cmd, ret, _find_demux, gets. cbn [Z.eqb negb andb].
  rewrite Hfs, Hv. unfold missing. rewrite Hev. cbn [negb].
  rewrite Ha, Hea. reflexivity.
Qed.

End DemuxResults.

Lemma demux_without_enabled_announcement_witness :
  exists d,
    demux default_opts french_report foreign_log 0 all_exist demux_init
    = Raise (RuntimeError "Could not locate demuxed video stream.") d
    /\ _demux_v d = None.
Proof.
  apply (demux_without_enabled_announcement default_opts french_report
           foreign_log all_exist [(17%Z, true)] [(20%Z, true); (21%Z, false)]).
  - reflexivity.
  - repeat constructor.
Defined.

Lemma demux_takes_files_by_ordinal_witness :
  exists d,
    demux default_opts english_report small_log 0 all_exist demux_init = Ok tt d
    /\ _demux_v d = Some "b.m2v"%string
    /\ _demux_a d = Some "c.ac3"%string.
Proof.
  apply (demux_takes_files_by_ordinal default_opts english_report small_log
           all_exist
           (probed_video english_report) (probed_audio "eng" english_report)
           (firstn 3 small_log) (skipn 3 small_log)
           [17%Z] [] [] [] 18%Z 21%Z);
    try reflexivity; repeat constructor.
Defined.

(** ** The target resolution *)







(** ** The chapters of an MPEG-4 file *)

Lemma round_half_even_whole (x : Q) (k : Z) :
  x == inject_Z k -> Py.round_half_even x = k.
Proof.
  intros Hx. unfold Py.round_half_even. cbv zeta.
  rewrite (floor_is x k) by lra.
  assert (E : Py.ltb (x - inject_Z k) (1 # 2) = true) by (apply ltb_lt; lra).
  rewrite E. reflexivity.
Qed.

Lemma two_digit_seconds (s : Z) :
  (0 <= s < 60)%Z ->
  Py.zpad 7 (Py.digits (Z.abs_N s) ++ "." ++ Py.zpad 4 (Py.digits (Z.abs_N 0)))
  = (Py.fmt_d 2 s ++ ".0000")%string.
Proof.
  intros Hs.
  assert (Hn : exists n, (n < 60)%nat /\ s = Z.of_nat n).
  { exists (Z.to_nat s). split; lia. }
  destruct Hn as (n & Hn & ->). clear Hs.
  do 60 (destruct n as [| n]; [reflexivity |]). lia.
Qed.

(** The form without comma of a whole number of seconds below one
    minute. *)
Lemma fmt_f_whole (y : Q) (s : Z) :
  (0 <= s < 60)%Z -> y == inject_Z s ->
  Py.fmt_f 7 4 y = (Py.fmt_d 2 s ++ ".0000")%string.
Proof.
  intros Hs Hy. assert (Qs : 0 <= inject_Z s).
  { change 0 with (inject_Z 0). rewrite <- Zle_Qle. lia. }
  unfold Py.fmt_f. cbv zeta.
  assert (Escaled : Py.round_half_even (Qabs y * inject_Z (Py.pow10 4))
                    = (s * 10000)%Z).
  { apply round_half_even_whole. rewrite Qabs_pos by lra.
    rewrite Hy, inject_Z_mult. reflexivity. }
  rewrite Escaled. change (Py.pow10 4) with 10000%Z.
  rewrite Z.div_mul, Z.mod_mul by lia.
  assert (E : Py.ltb y 0 = false) by (apply ltb_ge; lra).
  rewrite E. apply two_digit_seconds. exact Hs.
Qed.

(** The form without comma of a whole number of seconds. *)
Lemma whole_seconds_form (x : Q) (h m s : Z) :
  (0 <= h)%Z -> (0 <= m < 60)%Z -> (0 <= s < 60)%Z ->
  x == inject_Z (h * 3600 + m * 60 + s) ->
  _seconds_to_time_frac x false
  = (Py.fmt_d 2 h ++ ":" ++ Py.fmt_d 2 m ++ ":" ++ Py.fmt_d 2 s
       ++ ".0000")%string.
Proof.
  intros Hh Hm Hs Hx.
  assert (Hx' : x == inject_Z h * 3600 + inject_Z m * 60 + inject_Z s + 0).
  { rewrite Hx, !inject_Z_plus, !inject_Z_mult. ring. }
  destruct (hms_split x 0 h m s Hh Hm Hs) as (E1 & E2 & E3 & E4);
    [lra | lra | exact Hx' |].
  unfold _seconds_to_time_frac. cbv zeta. rewrite E1, E2.
  rewrite (fmt_f_whole _ s Hs) by (rewrite E4; ring).
  reflexivity.
Qed.

(** X19. [MP4Chapters.add] puts every chapter at a whole number of
    seconds: when the position rounds to [h] hours, [m] minutes and [s]
    seconds, the sample time it adds to the document is
    [hh:mm:ss.0000], after the samples that were there. *)
Theorem mp4_chapters_on_whole_seconds (pos : Q) (seg : option nat)
    (doc : list MP4Chapters.sample) (h m s : Z) :
  (0 <= h)%Z -> (0 <= m < 60)%Z -> (0 <= s < 60)%Z ->
  Py.round pos = (h * 3600 + m * 60 + s)%Z ->
  map MP4Chapters.sampleTime (MP4Chapters.add pos seg doc)
  = (map MP4Chapters.sampleTime doc
       ++ [(Py.fmt_d 2 h ++ ":" ++ Py.fmt_d 2 m ++ ":" ++ Py.fmt_d 2 s
              ++ ".0000")%string])%list.
Proof.
  intros Hh Hm Hs Hpos. unfold MP4Chapters.add. cbv zeta.
  rewrite (whole_seconds_form _ h m s Hh Hm Hs) by (rewrite Hpos; reflexivity).
  destruct seg; rewrite map_app; reflexivity.
Qed.

Lemma mp4_chapters_on_whole_seconds_witness :
  map MP4Chapters.sampleTime (MP4Chapters.add (36755 # 10) (Some 1%nat) [])
  = (map MP4Chapters.sampleTime []
       ++ [(Py.fmt_d 2 1 ++ ":" ++ Py.fmt_d 2 1 ++ ":" ++ Py.fmt_d 2 16
              ++ ".0000")%string])%list.
Proof.
  apply (mp4_chapters_on_whole_seconds (36755 # 10) (Some 1%nat) [] 1 1 16);
    try lia. reflexivity.
Defined.

(** ** The cutpoints of the captions *)

Section Cutpoints.

Variable ffmpeg : Q * Q -> nat -> Z.
Variable o : opts.

Lemma increasing_prefix (l : list Q) :
  forall d x, increasing d (l ++ [x]) -> increasing d l.
Proof.
  induction l as [| y l IH]; intros d x H; [exact I |].
  cbn [app increasing] in *. destruct H as [H1 H2].
  split; [exact H1 | exact (IH _ _ H2)].
Qed.

Lemma increasing_from (l : list Q) :
  forall d d', d' <= d -> increasing d l -> increasing d' l.
Proof.
  destruct l as [| x l]; intros d d' Hd H; [exact I |].
  cbn in *. destruct H as [H1 H2]. split; [lra | exact H2].
Qed.

(** Along ascending cuts the loop of [split] marks cutpoints that rise,
    all after the cursor and before the end of the last cut. *)
Lemma split_loop_marks_rise (cuts : list (Q * Q)) :
  forall pos elapsed t pe' t',
    ascending pos cuts ->
    for_each cuts (split_cut ffmpeg o) (pos, elapsed) t = Ok pe' t' ->
    fst pe' = last_end pos cuts
    /\ pos <= last_end pos cuts
    /\ exists ms, marks t' = (marks t ++ ms)%list
                  /\ forall hi, last_end pos cuts < hi ->
                                increasing pos (ms ++ [hi]).
Proof.
  induction cuts as [| [s e] rest IH]; intros pos elapsed t pe' t' Hasc Hrun.
  - inversion Hrun. subst. unfold last_end. cbn [fold_left fst].
    split; [reflexivity |]. split; [lra |].
    exists []. rewrite app_nil_r. split; [reflexivity |].
    intros hi Hhi. cbn. split; [exact Hhi | exact I].
  - cbn [ascending] in Hasc. destruct Hasc as (Hps & Hse & Hrest).
    change (last_end pos ((s, e) :: rest)) with (last_end e rest).
    cbn [for_each] in Hrun. unfold bind at 1 in Hrun. unfold split_cut in Hrun.
    destruct (Py.gtb s (inject_Z (thresh o)) && Py.gtb s pos)%bool eqn:E.
    + unfold bind at 1 in Hrun.
      destruct (Z.eq_dec (ffmpeg (pos, s) (seg t)) 0) as [E0 | E0].
      * rewrite _extract_ok in Hrun by exact E0. unfold ret at 1 in Hrun.
        destruct (IH _ _ _ _ _ Hrest Hrun) as (Hpos & Hle & ms & Hms & Hinc).
        split; [exact Hpos |]. split; [lra |].
        exists (s :: ms). split.
        -- rewrite Hms. cbn [marks]. unfold Subtitles.mark. cbn [snd].
           rewrite <- app_assoc. reflexivity.
        -- intros hi Hhi. cbn [app increasing].
           apply emit_test in E. split; [tauto |].
           apply (increasing_from _ e); [lra | exact (Hinc hi Hhi)].
      * rewrite _extract_fails in Hrun by exact E0. discriminate.
    + unfold bind at 1 in Hrun. unfold ret at 1 in Hrun.
      destruct (IH _ _ _ _ _ Hrest Hrun) as (Hpos & Hle & ms & Hms & Hinc).
      split; [exact Hpos |]. split; [lra |].
      exists ms. split; [exact Hms |].
      intros hi Hhi. apply (increasing_from _ e); [lra | exact (Hinc hi Hhi)].
Qed.

(** X20. For cuts in ascending order and a threshold that is not
    negative, the cutpoints that [split] has marked for the captions when
    it returns rise strictly, the first above 0: [adjust] receives its
    cutpoints in ascending order. *)
Theorem split_marks_rise (src : source) (t : transcoder) :
  ascending 0 (cutlist src) ->
  0 <= inject_Z (thresh o) ->
  split ffmpeg o src init = Ok tt t ->
  increasing 0 (marks t).
Proof.
  intros Hasc Hth Hrun. unfold split in Hrun. unfold bind at 1 in Hrun.
  destruct (for_each (cutlist src) (split_cut ffmpeg o) (0, 0) init)
    as [[pos elapsed] t1 | e t1] eqn:Eloop; [| discriminate].
  destruct (split_loop_marks_rise _ _ _ _ _ _ Hasc Eloop)
    as (Hpos & Hle & ms & Hms & Hinc).
  cbn [fst] in Hpos. cbn [marks init app] in Hms. subst pos.
  unfold bind in Hrun.
  destruct (Py.ltb (last_end 0 (cutlist src))
                   (duration src - inject_Z (thresh o))) eqn:Etail.
  - destruct (Z.eq_dec (ffmpeg (last_end 0 (cutlist src), duration src) (seg t1)) 0)
      as [E | E].
    + rewrite _extract_ok in Hrun by exact E. cbn in Hrun. inversion Hrun.
      cbn [marks]. rewrite Hms. apply Hinc. apply ltb_lt in Etail. lra.
    + rewrite _extract_fails in Hrun by exact E. discriminate.
  - cbn in Hrun. inversion Hrun. cbn [marks]. rewrite Hms.
    apply (increasing_prefix ms 0 (last_end 0 (cutlist src) + 1)).
    apply Hinc. lra.
Qed.

End Cutpoints.

Lemma split_marks_rise_witness : increasing 0 (marks two_breaks_done).
Proof.
  apply (split_marks_rise always_ok default_opts two_breaks two_breaks_done
           ascending_two_breaks).
  - vm_compute. discriminate.
  - exact two_breaks_done_run.
Defined.

(** ** The field of the milliseconds *)



